(** * ConnectionBreaker: a shallow embedding of [src/main.py]

    The program is a PyQt6 front end around three small pieces of logic:
    hotkey validation and capture ([is_valid_hotkey],
    [MainWindow.set_new_hotkey]), the process enumeration of
    [ProcessLoaderThread.run], and the guarded subprocess call of
    [MainWindow.kill_connections]; the start-up script checks for
    administrator rights and takes a single-instance lock.

    Python values are embedded as follows.
    - [str] is [string], holding the UTF-8 bytes of the text.
    - [None]-or-value attributes are [option]s; truthiness is written out.
    - a Python [set] of strings is a [gset string], a [dict] a [gmap].
    - Calls into the operating system, Qt, [keyboard], [psutil] and
      [subprocess] are answered by an explicit environment, and what the
      program does to the outside is recorded as a list of [Event]s.
    - Exceptions are values of [exn]; [try]/[except]/[finally] are
      combinators of the monad [M]. *)

From Stdlib Require Import ZArith Ascii String List Bool Lia.
From stdpp Require Import base gmap strings list sorting.

Local Open Scope Z_scope.

(** ** Python strings *)

Module PyStr.

(** [str.lower()] and [str.strip()] work on all of Unicode: every cased
    code point is lower-cased, every Unicode white space is stripped.
    They are taken as given.  The functions of the program are defined
    over any such pair, and what is proved of them is proved for every
    pair, hence for the two built-ins themselves. *)
Class Unicode := {
  lower : string -> string;
  strip : string -> string
}.

Definition byte_of (c : ascii) : N := N_of_ascii c.

Definition in_range (lo hi : N) (c : ascii) : bool :=
  ((lo <=? byte_of c) && (byte_of c <=? hi))%N.

Definition shift_up (d : N) (c : ascii) : ascii := ascii_of_N (byte_of c + d).
Definition shift_down (d : N) (c : ascii) : ascii := ascii_of_N (byte_of c - d).

(** ['A'..'Z'] to ['a'..'z']; every other byte is kept. *)
Definition lower_ascii (c : ascii) : ascii :=
  if in_range 65 90 c then shift_up 32 c else c.

(** Lower-casing of the ASCII letters and of the Cyrillic capitals
    U+0400..U+042F (the keys of [RU_TO_EN_MAP] are their lower-case
    forms).  In UTF-8 a Cyrillic capital is the lead byte 0xD0 followed
    by 0x80..0xAF.  Any other code point is left as it is, so this agrees
    with [str.lower()] on English and Russian text only; it serves to run
    the examples. *)
Fixpoint ascii_cyrillic_lower (s : string) : string :=
  match s with
  | EmptyString => EmptyString
  | String c1 t =>
      match t with
      | String c2 r =>
          if (byte_of c1 =? 208)%N then
            if in_range 128 143 c2 then
              String (ascii_of_N 209) (String (shift_up 16 c2) (ascii_cyrillic_lower r))
            else if in_range 144 159 c2 then
              String c1 (String (shift_up 32 c2) (ascii_cyrillic_lower r))
            else if in_range 160 175 c2 then
              String (ascii_of_N 209) (String (shift_down 32 c2) (ascii_cyrillic_lower r))
            else String c1 (ascii_cyrillic_lower t)
          else String (lower_ascii c1) (ascii_cyrillic_lower t)
      | EmptyString => String (lower_ascii c1) EmptyString
      end
  end.

(** The white space of the ASCII range: TAB, LF, VT, FF, CR, the
    separators 0x1C..0x1F and the space. *)
Definition is_space (c : ascii) : bool :=
  in_range 9 13 c || in_range 28 32 c.

Fixpoint lstrip (s : string) : string :=
  match s with
  | EmptyString => EmptyString
  | String c r => if is_space c then lstrip r else s
  end.

Fixpoint rstrip (s : string) : string :=
  match s with
  | EmptyString => EmptyString
  | String c r =>
      match rstrip r with
      | EmptyString => if is_space c then EmptyString else String c EmptyString
      | r' => String c r'
      end
  end.

(** Stripping of ASCII white space: [str.strip()] on text that has no
    other white space at its ends; it serves to run the examples. *)
Definition ascii_strip (s : string) : string := rstrip (lstrip s).

(** [s.split(sep)] for a one-character separator: never the empty list,
    empty fields are kept. *)
Fixpoint split (sep : ascii) (s : string) : list string :=
  match s with
  | EmptyString => [EmptyString]
  | String c r =>
      if Ascii.eqb c sep then EmptyString :: split sep r
      else match split sep r with
           | h :: t => String c h :: t
           | [] => [String c EmptyString]
           end
  end.

(** [sep.join(parts)] *)
Definition join (sep : string) (parts : list string) : string :=
  String.concat sep parts.

(** Truthiness of a [str]: non-empty. *)
Definition truthy (s : string) : bool :=
  match s with EmptyString => false | String _ _ => true end.

(** Truthiness of an attribute that is [None] or a [str]. *)
Definition truthy_opt (o : option string) : bool :=
  match o with None => false | Some s => truthy s end.

(** The pair used to run the examples, all of which are English or
    Russian text without exotic white space. *)
Definition ascii_cyrillic : Unicode :=
  {| lower := ascii_cyrillic_lower; strip := ascii_strip |}.

End PyStr.

(** ** Python exceptions *)

Module Exc.

(** The exception classes the program names in an [except] clause or can
    meet at one of its calls, with their place in Python's hierarchy. *)
Inductive cls :=
| BaseException | Exception
| KeyboardInterrupt | SystemExit
| KeyError | ValueError | AttributeError
| OSError | FileNotFoundError | PermissionError
| SubprocessError | CalledProcessError
| PsutilError | NoSuchProcess | ZombieProcess | AccessDenied.

#[global] Instance cls_eq_dec : EqDecision cls.
Proof. solve_decision. Defined.

(** Direct base class ([psutil.ZombieProcess] derives from
    [psutil.NoSuchProcess]). *)
Definition base (c : cls) : option cls :=
  match c with
  | BaseException => None
  | Exception | KeyboardInterrupt | SystemExit => Some BaseException
  | KeyError | ValueError | AttributeError | OSError
  | SubprocessError | PsutilError => Some Exception
  | FileNotFoundError | PermissionError => Some OSError
  | CalledProcessError => Some SubprocessError
  | NoSuchProcess | AccessDenied => Some PsutilError
  | ZombieProcess => Some NoSuchProcess
  end.

Fixpoint issubclass_fuel (n : nat) (c d : cls) : bool :=
  if decide (c = d) then true
  else match n, base c with
       | S k, Some b => issubclass_fuel k b d
       | _, _ => false
       end.

(** The hierarchy is four levels deep. *)
Definition issubclass (c d : cls) : bool := issubclass_fuel 4 c d.

(** An exception object: its class, its text, and the integer it carries
    when it has one (the [returncode] of a [CalledProcessError], the
    [code] of a [SystemExit]; 0 otherwise). *)
Record exn := Exn { class_of : cls; message : string; code : Z }.

Definition isinstance (e : exn) (d : cls) : bool := issubclass (class_of e) d.

(** [except (C1, C2, ...)]: does the clause catch [e]? *)
Definition caught_by (handled : list cls) (e : exn) : bool :=
  existsb (isinstance e) handled.

End Exc.

Export Exc (exn, Exn).
Arguments Exc.isinstance : simpl never.

(** ** What the program does to the outside *)

(** One entry of the list [ProcessLoaderThread] emits: the dictionary
    [{'name': p_name, 'pid': pid}]. *)
Record ProcessInfo := { pi_name : string; pi_pid : Z }.

(** The caption of the hotkey button.  [HotkeyText hk] stands for
    [f"Hotkey: {hk.upper()}"]. *)
Inductive ButtonText :=
| SetHotkeyText | PressAnyKeyText | TooManyModifiersText
| InvalidCombinationText | HotkeyText (hk : string).

Inductive Event :=
| Print (text : string)
| SubprocessRun (command : list string) (check : bool) (create_no_window : bool)
| KeyboardAddHotkey (hotkey : string)
| KeyboardRemoveHotkey (hotkey : string)
| MSleep (ms : Z)
| PsutilPids
| PsutilProcess (pid : Z)
| ProcessName (pid : Z)
| ProcessCmdline (pid : Z)
| EmitProcessesReady (processes : list ProcessInfo)
| SetAppUserModelID (appid : string)
| IsUserAnAdmin
| MessageBoxW (text caption : string) (flags : Z)
| NewQApplication
| SharedMemoryAttach (key : string)
| SharedMemoryCreate (key : string) (size : Z)
| ErrorBoxExec (text informative title : string)
| SetQuitOnLastWindowClosed (b : bool)
| ApplyStylesheet
| NewMainWindow
| WindowShow
| AppExec
| SingleShot (ms : Z) (button_text : ButtonText).

(** ** A monad for effectful Python code

    A computation reads and updates a state [S] (the object's
    attributes), appends to the trace of events, and ends by returning a
    value or by raising. *)

Inductive Result (A : Type) :=
| Returns (a : A)
| Raises (e : exn).
Arguments Returns {A} a.
Arguments Raises {A} e.

Record Run (S A : Type) := MkRun { result : Result A; final : S; trace : list Event }.
Arguments MkRun {S A} result final trace.
Arguments result {S A} r.
Arguments final {S A} r.
Arguments trace {S A} r.

Definition M (S A : Type) : Type := S -> Run S A.

Definition ret {S A} (a : A) : M S A := fun s => MkRun (Returns a) s [].

Definition raise {S A} (e : exn) : M S A := fun s => MkRun (Raises e) s [].

Definition bind {S A B} (m : M S A) (k : A -> M S B) : M S B :=
  fun s =>
    match m s with
    | MkRun (Returns a) s1 t1 =>
        match k a s1 with
        | MkRun r2 s2 t2 => MkRun r2 s2 (t1 ++ t2)
        end
    | MkRun (Raises e) s1 t1 => MkRun (Raises e) s1 t1
    end.

Definition emit {S} (ev : Event) : M S unit := fun s => MkRun (Returns tt) s [ev].

Definition get {S} : M S S := fun s => MkRun (Returns s) s [].

Definition modify {S} (f : S -> S) : M S unit := fun s => MkRun (Returns tt) (f s) [].

(** An outside call whose answer the environment has fixed. *)
Definition answer {S A} (ev : Event) (r : Result A) : M S A :=
  fun s => MkRun r s [ev].

(** [try: body / except handled: handler] *)
Definition try_except {S A} (body : M S A) (handled : list Exc.cls)
    (handler : exn -> M S A) : M S A :=
  fun s =>
    match body s with
    | MkRun (Returns a) s1 t1 => MkRun (Returns a) s1 t1
    | MkRun (Raises e) s1 t1 =>
        if Exc.caught_by handled e then
          match handler e s1 with
          | MkRun r2 s2 t2 => MkRun r2 s2 (t1 ++ t2)
          end
        else MkRun (Raises e) s1 t1
    end.

(** [try: body / finally: cleanup].  The clean-up always runs; when it
    raises, its exception replaces the outcome of the body, otherwise the
    body's outcome (its value or its exception) stands. *)
Definition try_finally {S A} (body : M S A) (cleanup : M S unit) : M S A :=
  fun s =>
    match body s with
    | MkRun r1 s1 t1 =>
        match cleanup s1 with
        | MkRun (Returns _) s2 t2 => MkRun r1 s2 (t1 ++ t2)
        | MkRun (Raises e') s2 t2 => MkRun (Raises e') s2 (t1 ++ t2)
        end
    end.

Declare Scope py_scope.
Delimit Scope py_scope with py.
Notation "x <- m ;; k" := (bind m (fun x => k))
  (at level 100, m at next level, right associativity) : py_scope.
Notation "m ;; k" := (bind m (fun _ => k))
  (at level 100, right associativity) : py_scope.
Local Open Scope py_scope.

(** [if c: body] with no [else]. *)
Definition when {S} (c : bool) (body : M S unit) : M S unit :=
  if c then body else ret tt.

Definition gets {S A} (f : S -> A) : M S A := fun s => MkRun (Returns (f s)) s [].

(** [for x in xs: body x] *)
Fixpoint for_each {S A} (xs : list A) (body : A -> M S unit) : M S unit :=
  match xs with
  | [] => ret tt
  | x :: rest => body x ;; for_each rest body
  end.

(** ** Constants and [is_valid_hotkey] *)

Definition MODIFIERS : gset string := {[ "ctrl"; "alt"; "shift"; "win" ]}.

Definition RU_TO_EN_MAP : gmap string string :=
  list_to_map
    [ ("й", "q"); ("ц", "w"); ("у", "e"); ("к", "r"); ("е", "t"); ("н", "y");
      ("г", "u"); ("ш", "i"); ("щ", "o"); ("з", "p"); ("х", "["); ("ъ", "]");
      ("ф", "a"); ("ы", "s"); ("в", "d"); ("а", "f"); ("п", "g"); ("р", "h");
      ("о", "j"); ("л", "k"); ("д", "l"); ("ж", ";"); ("э", "'");
      ("я", "z"); ("ч", "x"); ("с", "c"); ("м", "v"); ("и", "b"); ("т", "n");
      ("ь", "m"); ("б", ","); ("ю", ".") ].

(** [RU_TO_EN_MAP.get(part, part)] *)
Definition translate (part : string) : string :=
  default part (RU_TO_EN_MAP !! part).

Definition is_modifier (p : string) : bool := bool_decide (p ∈ MODIFIERS).

(** [part.strip().lower() for part in hotkey_str.split('+')] *)
Definition valid_hotkey_parts {U : PyStr.Unicode} (hotkey_str : string) : list string :=
  map (fun part => PyStr.lower (PyStr.strip part)) (PyStr.split "+" hotkey_str).

(** The parts form a Python [set]; the non-modifier keys are collected by
    iterating over it. *)
Definition is_valid_hotkey {U : PyStr.Unicode} (hotkey_str : string) : bool :=
  if negb (PyStr.truthy hotkey_str) then false
  else
    let parts : gset string := list_to_set (valid_hotkey_parts hotkey_str) in
    let non_modifier_keys :=
      filter (fun p => is_modifier p = false) (elements parts) in
    Nat.eqb (length non_modifier_keys) 1.

(** ** [HotkeyListener.run] *)

Module HotkeyListener.

(** The answers of the [keyboard] library, and how long the thread is left
    running: [_is_running] is cleared by [stop] on the UI thread, and
    [polls] is the number of times the loop finds it still set. *)
Record Env := {
  add_hotkey : string -> Result unit;
  remove_hotkey : string -> Result unit;
  polls : nat
}.

(** [while self._is_running: self.msleep(100)] *)
Fixpoint wait_loop (n : nat) : M unit unit :=
  match n with
  | O => ret tt
  | S k => emit (MSleep 100) ;; wait_loop k
  end.

(** The body of the outer [try]. *)
Definition body (env : Env) (hotkey : string) : M unit unit :=
  answer (KeyboardAddHotkey hotkey) (add_hotkey env hotkey) ;;
  wait_loop (polls env).

(** The [finally] block. *)
Definition cleanup (env : Env) (hotkey : string) : M unit unit :=
  try_except
    (answer (KeyboardRemoveHotkey hotkey) (remove_hotkey env hotkey))
    [Exc.KeyError; Exc.ValueError]
    (fun _ => ret tt).

Definition run (env : Env) (hotkey : string) : M unit unit :=
  try_finally (body env hotkey) (cleanup env hotkey).

End HotkeyListener.

(** ** [ProcessLoaderThread.run] *)

Module ProcessLoaderThread.
Section WithProcessLoaderThreadUnicode.
Context {U : PyStr.Unicode}.

(** What [psutil] answers for one PID: the construction of the
    [Process] object, its [name()] and its [cmdline()]. *)
Record Observation := {
  process : Result unit;
  name : Result string;
  cmdline : Result (list string)
}.

Record Env := {
  pids : list Z;
  observe : Z -> Observation
}.

(** The two local variables of [run]. *)
Record Locals := {
  process_list : list ProcessInfo;
  added_process_names : gset string
}.

Definition add_name (n : string) (st : Locals) : Locals :=
  {| process_list := process_list st;
     added_process_names := {[ n ]} ∪ added_process_names st |}.

Definition append_info (i : ProcessInfo) (st : Locals) : Locals :=
  {| process_list := process_list st ++ [i];
     added_process_names := added_process_names st |}.

(** One iteration of the [for] loop.  [or] evaluates [p.cmdline()] only
    when the name is new; an empty command line is falsy. *)
Definition visit (env : Env) (pid : Z) : M Locals unit :=
  try_except
    (answer (PsutilProcess pid) (process (observe env pid)) ;;
     p_name <- answer (ProcessName pid) (name (observe env pid)) ;;
     added <- gets added_process_names ;;
     skip <- (if bool_decide (PyStr.lower p_name ∈ added) then ret true
              else cl <- answer (ProcessCmdline pid) (cmdline (observe env pid)) ;;
                   ret (match cl with [] => true | _ => false end)) ;;
     if (skip : bool) then ret tt
     else
       modify (add_name (PyStr.lower p_name)) ;;
       modify (append_info {| pi_name := p_name; pi_pid := pid |}))
    [Exc.NoSuchProcess; Exc.AccessDenied; Exc.ZombieProcess]
    (fun _ => ret tt).

Definition run_body (env : Env) : M Locals unit :=
  emit PsutilPids ;;
  for_each (pids env) (visit env) ;;
  l <- gets process_list ;;
  emit (EmitProcessesReady l).

Definition initial : Locals :=
  {| process_list := []; added_process_names := ∅ |}.

Definition run (env : Env) : Run Locals unit := run_body env initial.

(** The list handed to [processes_ready], when the thread gets that far. *)
Definition emitted (env : Env) : option (list ProcessInfo) :=
  match result (run env) with
  | Returns _ => Some (process_list (final (run env)))
  | Raises _ => None
  end.

(** An answer that does not end the enumeration: a value, or one of the
    three exceptions the loop catches. *)
Definition skippable {A} (r : Result A) : Prop :=
  match r with
  | Returns _ => True
  | Raises e =>
      Exc.caught_by [Exc.NoSuchProcess; Exc.AccessDenied; Exc.ZombieProcess] e = true
  end.

(** Processes fail only by disappearing or by denying access. *)
Definition only_psutil_errors (env : Env) : Prop :=
  forall pid, pid ∈ pids env ->
    skippable (process (observe env pid))
    /\ skippable (name (observe env pid))
    /\ skippable (cmdline (observe env pid)).

(** An entry that pairs a name with the PID it was read from, of a
    process that answered every query and has a command line. *)
Definition genuine (env : Env) (i : ProcessInfo) : Prop :=
  pi_pid i ∈ pids env
  /\ process (observe env (pi_pid i)) = Returns tt
  /\ name (observe env (pi_pid i)) = Returns (pi_name i)
  /\ exists cl, cmdline (observe env (pi_pid i)) = Returns cl /\ cl <> [].

(** The key duplicates are detected by. *)
Definition key (i : ProcessInfo) : string := PyStr.lower (pi_name i).

(** What the loop maintains. *)
Record Invariant (env : Env) (st : Locals) : Prop := {
  inv_nodup : NoDup (key <$> process_list st);
  inv_added : forall i, i ∈ process_list st -> key i ∈ added_process_names st;
  inv_genuine : forall i, i ∈ process_list st -> genuine env i
}.

(** A process the list can show under the name [n]: it could be opened,
    gave that name, and has a command line. *)
Definition eligible (env : Env) (pid : Z) (n : string) : Prop :=
  process (observe env pid) = Returns tt
  /\ name (observe env pid) = Returns n
  /\ exists cl, cmdline (observe env pid) = Returns cl /\ cl <> [].

(** The entry [i] was made at the first PID of [done] that is eligible
    under a name with the key of [i]. *)
Definition first_of_its_name (env : Env) (done : list Z) (i : ProcessInfo) : Prop :=
  exists before later,
    done = before ++ pi_pid i :: later
    /\ eligible env (pi_pid i) (pi_name i)
    /\ forall q n, q ∈ before -> eligible env q n -> PyStr.lower n <> key i.

(** What the loop has achieved once the PIDs [done] are behind it. *)
Record Progress (env : Env) (done : list Z) (st : Locals) : Prop := {
  prog_added : forall k, k ∈ added_process_names st <-> k ∈ key <$> process_list st;
  prog_covered : forall q n, q ∈ done -> eligible env q n ->
                             PyStr.lower n ∈ added_process_names st;
  prog_first : forall i, i ∈ process_list st -> first_of_its_name env done i;
  prog_order : (pi_pid <$> process_list st) `sublist_of` done
}.

(** A snapshot used in the examples: PID 4 denies access, 100 and 200
    are two processes of the same program under names that differ in
    case, 300 has no command line, 400 is gone before it can be opened. *)
Definition sample_observe (pid : Z) : Observation :=
  if pid =? 4 then
    {| process := Returns tt;
       name := Raises (Exn Exc.AccessDenied "psutil.AccessDenied" 0);
       cmdline := Raises (Exn Exc.AccessDenied "psutil.AccessDenied" 0) |}
  else if pid =? 100 then
    {| process := Returns tt; name := Returns "Chrome.exe";
       cmdline := Returns ["C:\Chrome.exe"; "--type=renderer"] |}
  else if pid =? 200 then
    {| process := Returns tt; name := Returns "chrome.exe";
       cmdline := Returns ["C:\chrome.exe"] |}
  else if pid =? 300 then
    {| process := Returns tt; name := Returns "Registry"; cmdline := Returns [] |}
  else
    {| process := Raises (Exn Exc.NoSuchProcess "psutil.NoSuchProcess" 0);
       name := Raises (Exn Exc.NoSuchProcess "psutil.NoSuchProcess" 0);
       cmdline := Raises (Exn Exc.NoSuchProcess "psutil.NoSuchProcess" 0) |}.

Definition sample_env : Env :=
  {| pids := [4; 100; 200; 300; 400]; observe := sample_observe |}.

End WithProcessLoaderThreadUnicode.

End ProcessLoaderThread.

(** ** Asset paths *)

(** [resource_path] joins the assets directory with a file name.  The
    directory ([base_path] in the source) depends on how the program was
    started; both of its branches end in the component [assets], so
    [os.path.join] puts one separator between it and the file name. *)
Definition resource_path (base_path relative_path : string) : string :=
  base_path +:+ "\" +:+ relative_path.

Definition ICON_PATH (base_path : string) : string := resource_path base_path "icon.ico".
Definition CPORTS_PATH (base_path : string) : string := resource_path base_path "cports.exe".

(** ** [ProcessDialog] *)

Module ProcessDialog.
Section WithProcessDialogUnicode.
Context {U : PyStr.Unicode}.

(** A [QListWidgetItem]: its text and the PID kept under [UserRole]. *)
Record Item := { text : string; user_pid : option Z }.

Record t := {
  process_list_widget : list Item;
  current_row : option nat;
  selected_process : option string;
  ok_enabled : bool;
  video_running : bool;
  accepted : bool
}.

(** [__init__]: one placeholder row, nothing selected, OK disabled. *)
Definition init : t :=
  {| process_list_widget := [ {| text := "Loading processes..."; user_pid := None |} ];
     current_row := None;
     selected_process := None;
     ok_enabled := false;
     video_running := false;
     accepted := false |}.

(** [QListWidget.currentItem()]: the item of the current row, or [None]. *)
Definition currentItem (d : t) : option Item :=
  match current_row d with
  | Some i => process_list_widget d !! i
  | None => None
  end.

(** [accept]: an item object is truthy, [None] is not. *)
Definition accept (d : t) : t :=
  {| process_list_widget := process_list_widget d;
     current_row := current_row d;
     selected_process :=
       match currentItem d with
       | Some item => Some (text item)
       | None => selected_process d
       end;
     ok_enabled := ok_enabled d;
     video_running := false;
     accepted := true |}.

Definition reject (d : t) : t :=
  {| process_list_widget := process_list_widget d;
     current_row := current_row d;
     selected_process := selected_process d;
     ok_enabled := ok_enabled d;
     video_running := false;
     accepted := false |}.

(** The sort key of [update_process_list]: [x['name'].lower()]. *)
Definition sort_key (p : ProcessInfo) : string := PyStr.lower (pi_name p).

(** [sorted(processes, key=...)].  Python compares strings code point by
    code point, which on UTF-8 text is the comparison byte by byte of
    [String.ltb]; and its sort is stable, so it is fixed by its input: it
    is the list obtained by inserting each element, from the left, behind
    the elements whose key is not greater. *)
Fixpoint insert_sorted (x : ProcessInfo) (l : list ProcessInfo) : list ProcessInfo :=
  match l with
  | [] => [x]
  | y :: rest =>
      if String.ltb (sort_key x) (sort_key y) then x :: y :: rest
      else y :: insert_sorted x rest
  end.

Definition sorted_by_name (processes : list ProcessInfo) : list ProcessInfo :=
  fold_left (fun acc x => insert_sorted x acc) processes [].

(** [QListWidgetItem(icon, p_info['name'])] with the PID under [UserRole]. *)
Definition item_of (p : ProcessInfo) : Item :=
  {| text := pi_name p; user_pid := Some (pi_pid p) |}.

(** [update_process_list], the slot [processes_ready] is connected to.
    [clear()] empties the widget, leaving no current row.  The icon
    loader, started last for the rows just added, changes icons only. *)
Definition update_process_list (processes : list ProcessInfo) (d : t) : t :=
  match processes with
  | [] =>
      {| process_list_widget := [ {| text := "Could not load processes."; user_pid := None |} ];
         current_row := None;
         selected_process := selected_process d;
         ok_enabled := ok_enabled d;
         video_running := video_running d;
         accepted := accepted d |}
  | _ :: _ =>
      {| process_list_widget := map item_of (sorted_by_name processes);
         current_row := None;
         selected_process := selected_process d;
         ok_enabled := true;
         video_running := video_running d;
         accepted := accepted d |}
  end.

(** The user makes row [i] the current row (a click on it); a row that
    does not exist cannot be clicked. *)
Definition click_row (i : nat) (d : t) : t :=
  {| process_list_widget := process_list_widget d;
     current_row := if (i <? length (process_list_widget d))%nat then Some i
                    else current_row d;
     selected_process := selected_process d;
     ok_enabled := ok_enabled d;
     video_running := video_running d;
     accepted := accepted d |}.

(** The order [sorted] establishes. *)
Definition key_le (a b : ProcessInfo) : Prop :=
  String.leb (sort_key a) (sort_key b) = true.

(** Rows in the order of their lower-cased texts. *)
Definition rows_sorted (rows : list Item) : Prop :=
  Sorted (fun a b => String.leb (PyStr.lower (text a)) (PyStr.lower (text b)) = true) rows.

End WithProcessDialogUnicode.

End ProcessDialog.

(** ** [MainWindow] *)

Module MainWindow.
Section WithMainWindowUnicode.
Context {U : PyStr.Unicode}.

(** A [HotkeyListener] thread object as the window sees it: the hotkey it
    was built with and [isRunning()]. *)
Record Listener := { hotkey : string; isRunning : bool }.

(** The attributes of the window.  [retired] holds the listener objects
    that [self.hotkey_listener] no longer points to; they stay alive as
    children of the window. *)
Record t := {
  selected_process : option string;
  current_hotkey : option string;
  hotkey_listener : option Listener;
  retired : list Listener;
  is_paused : bool;
  process_label : string;
  set_hotkey_button : ButtonText;
  set_hotkey_button_enabled : bool;
  toggle_action : string
}.

(** [__init__] *)
Definition init : t :=
  {| selected_process := None;
     current_hotkey := None;
     hotkey_listener := None;
     retired := [];
     is_paused := false;
     process_label := "No process selected";
     set_hotkey_button := SetHotkeyText;
     set_hotkey_button_enabled := true;
     toggle_action := "Pause" |}.

Definition set_selected_process (v : option string) (w : t) : t :=
  {| selected_process := v; current_hotkey := current_hotkey w;
     hotkey_listener := hotkey_listener w; retired := retired w;
     is_paused := is_paused w; process_label := process_label w;
     set_hotkey_button := set_hotkey_button w;
     set_hotkey_button_enabled := set_hotkey_button_enabled w;
     toggle_action := toggle_action w |}.

Definition set_current_hotkey (v : option string) (w : t) : t :=
  {| selected_process := selected_process w; current_hotkey := v;
     hotkey_listener := hotkey_listener w; retired := retired w;
     is_paused := is_paused w; process_label := process_label w;
     set_hotkey_button := set_hotkey_button w;
     set_hotkey_button_enabled := set_hotkey_button_enabled w;
     toggle_action := toggle_action w |}.

Definition set_listeners (cur : option Listener) (old : list Listener) (w : t) : t :=
  {| selected_process := selected_process w; current_hotkey := current_hotkey w;
     hotkey_listener := cur; retired := old;
     is_paused := is_paused w; process_label := process_label w;
     set_hotkey_button := set_hotkey_button w;
     set_hotkey_button_enabled := set_hotkey_button_enabled w;
     toggle_action := toggle_action w |}.

Definition set_paused (b : bool) (txt : string) (w : t) : t :=
  {| selected_process := selected_process w; current_hotkey := current_hotkey w;
     hotkey_listener := hotkey_listener w; retired := retired w;
     is_paused := b; process_label := process_label w;
     set_hotkey_button := set_hotkey_button w;
     set_hotkey_button_enabled := set_hotkey_button_enabled w;
     toggle_action := txt |}.

Definition set_process_label (txt : string) (w : t) : t :=
  {| selected_process := selected_process w; current_hotkey := current_hotkey w;
     hotkey_listener := hotkey_listener w; retired := retired w;
     is_paused := is_paused w; process_label := txt;
     set_hotkey_button := set_hotkey_button w;
     set_hotkey_button_enabled := set_hotkey_button_enabled w;
     toggle_action := toggle_action w |}.

Definition set_button_text (txt : ButtonText) (w : t) : t :=
  {| selected_process := selected_process w; current_hotkey := current_hotkey w;
     hotkey_listener := hotkey_listener w; retired := retired w;
     is_paused := is_paused w; process_label := process_label w;
     set_hotkey_button := txt;
     set_hotkey_button_enabled := set_hotkey_button_enabled w;
     toggle_action := toggle_action w |}.

Definition set_button_enabled (b : bool) (w : t) : t :=
  {| selected_process := selected_process w; current_hotkey := current_hotkey w;
     hotkey_listener := hotkey_listener w; retired := retired w;
     is_paused := is_paused w; process_label := process_label w;
     set_hotkey_button := set_hotkey_button w;
     set_hotkey_button_enabled := b;
     toggle_action := toggle_action w |}.

(** [toggle_pause] *)
Definition toggle_pause : M t unit :=
  paused <- gets is_paused ;;
  modify (set_paused (negb paused) (if negb paused then "Resume" else "Pause")).

(** The file system and the process launcher as [kill_connections] meets
    them: [os.path.exists], and what [subprocess.run] does with a command
    (the child's return code, or the exception it raises). *)
Record Env := {
  path_exists : string -> bool;
  launch : list string -> Result Z
}.

(** [subprocess.run(command, check=True, creationflags=CREATE_NO_WINDOW)]:
    with [check] a non-zero return code becomes a [CalledProcessError].
    Its text here is a stand-in for the one Python composes from the
    command and the code; nothing below reads it. *)
Definition subprocess_run_check (env : Env) (command : list string) : M t unit :=
  rc <- answer (SubprocessRun command true true) (launch env command) ;;
  if rc =? 0 then ret tt
  else raise (Exn Exc.CalledProcessError "Command returned non-zero exit status" rc).

(** [kill_connections], the slot [hotkey_pressed] is connected to. *)
Definition kill_connections (base_path : string) (env : Env) : M t unit :=
  w <- get ;;
  if is_paused w || negb (PyStr.truthy_opt (selected_process w)) then ret tt
  else if negb (path_exists env (CPORTS_PATH base_path)) then
    emit (Print ("Can't find cports.exe at " +:+ CPORTS_PATH base_path
                 +:+ ". Can't do my job."))
  else
    match selected_process w with
    | None => ret tt
    | Some target =>
        try_except
          (let command :=
             [CPORTS_PATH base_path; "/close"; "*"; "*"; "*"; "*"; target] in
           subprocess_run_check env command)
          [Exc.CalledProcessError; Exc.Exception]
          (fun e =>
             emit (Print ("Failed to kill connections for " +:+ target
                          +:+ ". Error: " +:+ Exc.message e)))
    end.

(** The [command] list of [kill_connections] for a target. *)
Definition cports_command (base_path target : string) : list string :=
  [CPORTS_PATH base_path; "/close"; "*"; "*"; "*"; "*"; target].

(** [HotkeyListener.stop()]: clears the flag and waits for the thread, so
    the listener is no longer running when it returns. *)
Definition stop (l : Listener) : Listener :=
  {| hotkey := hotkey l; isRunning := false |}.

Definition listener_running (o : option Listener) : bool :=
  match o with Some l => isRunning l | None => false end.

(** [start_hotkey_listener] *)
Definition start_hotkey_listener : M t unit :=
  w <- get ;;
  when (listener_running (hotkey_listener w))
       (modify (fun w => set_listeners (stop <$> hotkey_listener w) (retired w) w)) ;;
  w <- get ;;
  match current_hotkey w with
  | Some hk =>
      when (PyStr.truthy hk)
           (modify (set_listeners
                      (Some {| hotkey := hk; isRunning := true |})
                      (match hotkey_listener w with
                       | Some old => old :: retired w
                       | None => retired w
                       end)))
  | None => ret tt
  end.

Definition restart_hotkey_listener : M t unit := start_hotkey_listener.

Definition hotkey_text (w : t) : ButtonText :=
  match current_hotkey w with
  | Some hk => if PyStr.truthy hk then HotkeyText hk else SetHotkeyText
  | None => SetHotkeyText
  end.

(** The last element of a non-empty list ([xs[-1]]). *)
Definition last_of (xs : list string) : list string :=
  match last xs with Some x => [x] | None => [] end.

(** The local lists of [set_new_hotkey]: the parts of the lower-cased
    capture, and their split into modifiers and other keys. *)
Definition hotkey_parts (hotkey_lower : string) : list string :=
  map PyStr.strip (PyStr.split "+" hotkey_lower).

Definition modifier_keys (parts : list string) : list string :=
  filter (fun p => is_modifier p = true) parts.

Definition non_modifier_keys (parts : list string) : list string :=
  filter (fun p => is_modifier p = false) parts.

(** The statements after the [if]/[else]: restart the listener and show
    the hotkey on the button. *)
Definition update_listener_and_button : M t unit :=
  restart_hotkey_listener ;;
  txt <- gets hotkey_text ;;
  modify (set_button_text txt).

(** The end of the [else] branch once [final_hotkey_parts] is chosen. *)
Definition use_parts (final_hotkey_parts : list string) : M t unit :=
  let translated_parts := map translate final_hotkey_parts in
  modify (set_current_hotkey (Some (PyStr.join " + " translated_parts))) ;;
  update_listener_and_button.

(** [hotkey.lower() if hotkey else ""] *)
Definition lowered (captured : string) : string :=
  if PyStr.truthy captured then PyStr.lower captured else "".

(** The test of the first branch of [set_new_hotkey]. *)
Definition clears_hotkey (captured : string) : bool :=
  negb (PyStr.truthy captured)
  || bool_decide (lowered captured ∈ ["esc"; "backspace"]).

(** [set_new_hotkey], the slot [hotkey_captured_signal] is connected to.
    The two early [return]s leave [current_hotkey] and the listener alone. *)
Definition set_new_hotkey (captured : string) : M t unit :=
  let hotkey_lower := lowered captured in
  modify (set_button_enabled true) ;;
  original_text <- gets hotkey_text ;;
  if clears_hotkey captured then
    modify (set_current_hotkey None) ;;
    update_listener_and_button
  else
    let parts := hotkey_parts hotkey_lower in
    if (1 <? length (modifier_keys parts))%nat then
      modify (set_button_text TooManyModifiersText) ;;
      emit (SingleShot 2000 original_text)
    else if (1 <? length (non_modifier_keys parts))%nat then
      use_parts (modifier_keys parts ++ last_of (non_modifier_keys parts))
    else if (length (non_modifier_keys parts) =? 0)%nat
            && (0 <? length (modifier_keys parts))%nat then
      modify (set_button_text InvalidCombinationText) ;;
      emit (SingleShot 2000 original_text)
    else
      use_parts parts.

(** [open_process_dialog].  [dialog] is the dialog as [exec()] leaves it,
    after the user has closed it. *)
Definition open_process_dialog (dialog : ProcessDialog.t) : M t unit :=
  if ProcessDialog.accepted dialog then
    match ProcessDialog.selected_process dialog with
    | Some p =>
        when (PyStr.truthy p)
             (modify (set_selected_process (Some p)) ;;
              modify (set_process_label ("Target: " +:+ p)) ;;
              w <- get ;;
              when (negb (listener_running (hotkey_listener w)))
                   restart_hotkey_listener)
    | None => ret tt
    end
  else
    w <- get ;;
    when (negb (PyStr.truthy_opt (selected_process w)))
         (modify (set_process_label "No process selected")).

(** Every listener object the window has created. *)
Definition listeners (w : t) : list Listener :=
  match hotkey_listener w with
  | Some l => l :: retired w
  | None => retired w
  end.

(** The hotkeys of the running listeners.  [HotkeyListener.run] registers
    its hotkey when the thread starts and removes it before the thread
    ends, and [stop] waits for that end; so the [keyboard] library holds
    no hotkey outside this list (it holds fewer when a registration
    failed). *)
Definition registered_hotkeys (w : t) : list string :=
  hotkey <$> filter (fun l => isRunning l = true) (listeners w).

(** At most the listener [self.hotkey_listener] points to is running:
    the objects it no longer points to have been stopped. *)
Definition retired_stopped (w : t) : Prop :=
  Forall (fun l => isRunning l = false) (retired w).

(** [start_hotkey_capture], as far as the window's attributes go: the
    button asks for a key and is disabled; the capture thread it starts
    reports through [hotkey_captured_signal], that is, by a later call of
    [set_new_hotkey]. *)
Definition start_hotkey_capture : M t unit :=
  modify (set_button_text PressAnyKeyText) ;;
  modify (set_button_enabled false).

(** A listener thread whose [run] has ended by itself (its registration
    raised): [isRunning()] is false from then on. *)
Definition listener_finished : M t unit :=
  modify (fun w => set_listeners (stop <$> hotkey_listener w) (retired w) w).

(** What can happen to the window after [__init__]: the slots its signals
    are connected to, with what the user or the environment supplies. *)
Inductive Action :=
| StartCapture                       (* set_hotkey_button.clicked *)
| Captured (hotkey : string)         (* hotkey_captured_signal *)
| DialogClosed (d : ProcessDialog.t) (* select_process_button.clicked, then exec() *)
| TogglePause                        (* toggle_action.triggered *)
| HotkeyPressed                      (* hotkey_pressed *)
| ListenerFinished.

Definition perform (base_path : string) (env : Env) (a : Action) : M t unit :=
  match a with
  | StartCapture => start_hotkey_capture
  | Captured hotkey => set_new_hotkey hotkey
  | DialogClosed d => open_process_dialog d
  | TogglePause => toggle_pause
  | HotkeyPressed => kill_connections base_path env
  | ListenerFinished => listener_finished
  end.

(** The window after a sequence of such events. *)
Definition after (base_path : string) (env : Env) (acts : list Action) : t :=
  fold_left (fun w a => final (perform base_path env a w)) acts init.

(** A running listener listens for the current hotkey. *)
Definition listens_to_current (w : t) : Prop :=
  forall l, hotkey_listener w = Some l -> isRunning l = true ->
            current_hotkey w = Some (hotkey l).

End WithMainWindowUnicode.

End MainWindow.

(** ** The start-up script ([if __name__ == "__main__":]) *)

Module Main.

(** What the operating system and Qt answer during start-up. *)
Record Env := {
  set_app_id : Result unit;          (* SetCurrentProcessExplicitAppUserModelID *)
  shell_is_user_an_admin : Result Z; (* shell32.IsUserAnAdmin() *)
  message_box : Result Z;            (* user32.MessageBoxW(...) *)
  attach : bool;                     (* QSharedMemory.attach() *)
  create : bool;                     (* QSharedMemory.create(1) *)
  error_string : string;             (* QSharedMemory.errorString() *)
  app_exec : Z                       (* QApplication.exec() *)
}.

Definition myappid : string := "mycompany.myproduct.connectionbreaker.1".
Definition lock_key : string := "ConnectionBreaker_SingleInstance_Lock".

(** [sys.exit(n)] raises [SystemExit(n)]. *)
Definition sys_exit {A} (n : Z) : M unit A :=
  raise (Exn Exc.SystemExit "" n).

(** [is_admin]: the bare [except:] catches every exception and answers
    [False], which is the integer 0. *)
Definition is_admin (env : Env) : M unit Z :=
  try_except
    (answer IsUserAnAdmin (shell_is_user_an_admin env))
    [Exc.BaseException]
    (fun _ => ret 0).

Definition admin_message : string :=
  "This application requires administrator privileges to view all processes and manage network connections.".

(** The script, statement by statement.  Setting the window icons, which
    depends on [ICON_PATH] only, is left out. *)
Definition main (env : Env) : M unit unit :=
  answer (SetAppUserModelID myappid) (set_app_id env) ;;
  admin <- is_admin env ;;
  (if admin =? 0 then
     answer (MessageBoxW admin_message "Administrator Privileges Required" 16)
            (message_box env) ;;
     sys_exit 1
   else ret tt) ;;
  emit NewQApplication ;;
  attached <- answer (SharedMemoryAttach lock_key) (Returns (attach env)) ;;
  (if (attached : bool) then
     emit (ErrorBoxExec "ConnectionBreaker is already running."
                        "Please check your system tray or task manager."
                        "Application Already Running") ;;
     sys_exit 0
   else
     created <- answer (SharedMemoryCreate lock_key 1) (Returns (create env)) ;;
     if (created : bool) then ret tt
     else
       emit (Print ("Error: Could not create shared memory segment: "
                    +:+ error_string env)) ;;
       sys_exit 1) ;;
  emit (SetQuitOnLastWindowClosed false) ;;
  emit ApplyStylesheet ;;
  emit NewMainWindow ;;
  emit WindowShow ;;
  status <- answer AppExec (Returns (app_exec env)) ;;
  sys_exit status.

(** How the interpreter ends: the code of a [SystemExit], 1 for any other
    uncaught exception, 0 when the script runs off its end. *)
Definition exit_code (r : Result unit) : Z :=
  match r with
  | Returns _ => 0
  | Raises e =>
      if Exc.isinstance e Exc.SystemExit then Exc.code e else 1
  end.

Definition start (env : Env) : Run unit unit := main env tt.

(** Did the run get to [QSharedMemory.attach] / [create], or to the
    construction of a window? *)
Definition touches_lock (ev : Event) : bool :=
  match ev with
  | SharedMemoryAttach _ | SharedMemoryCreate _ _ => true
  | _ => false
  end.

Definition creates_main_window (ev : Event) : bool :=
  match ev with NewMainWindow => true | _ => false end.

Definition makes_window (ev : Event) : bool :=
  match ev with
  | NewQApplication | NewMainWindow | WindowShow | ErrorBoxExec _ _ _ => true
  | _ => false
  end.

End Main.

(** Is the event the launch of a subprocess? *)
Definition is_launch (ev : Event) : bool :=
  match ev with SubprocessRun _ _ _ => true | _ => false end.

(** Is the event a line written to standard output? *)
Definition is_print (ev : Event) : bool :=
  match ev with Print _ => true | _ => false end.

(** Does the string contain the character? *)
Fixpoint contains (c : ascii) (s : string) : bool :=
  match s with
  | EmptyString => false
  | String c' r => Ascii.eqb c' c || contains c r
  end.

(** ** [IconLoaderThread.run] *)

Module IconLoaderThread.

(** An icon: the one the file icon provider gives for an executable, or
    the application's own ([QIcon(ICON_PATH)]). *)
Inductive Icon :=
| FileIcon (exe_path : string)
| AppIcon.

(** What [psutil] answers for one PID, and for which paths the provider
    has nothing to give ([icon.isNull()]). *)
Record Env := {
  process : Z -> Result unit;
  exe : Z -> Result string;
  is_null : string -> bool
}.

(** A call that leaves no trace of its own. *)
Definition call {S A} (r : Result A) : M S A := fun s => MkRun r s [].

(** The state is what [icon_ready] has emitted so far. *)
Definition Emitted : Type := list (ProcessDialog.Item * Icon).

Definition emit_icon (item : ProcessDialog.Item) (icon : Icon) : M Emitted unit :=
  modify (fun out => out ++ [(item, icon)]).

(** One iteration of the loop over [self.items_to_load]. *)
Definition load (env : Env) (entry : ProcessDialog.Item * Z) : M Emitted unit :=
  let '(item, pid) := entry in
  try_except
    (answer (PsutilProcess pid) (process env pid) ;;
     exe_path <- call (exe env pid) ;;
     when (PyStr.truthy exe_path)
          (let icon := FileIcon exe_path in
           when (negb (is_null env exe_path)) (emit_icon item icon)))
    [Exc.NoSuchProcess; Exc.AccessDenied; Exc.FileNotFoundError]
    (fun _ => ret tt).

Definition run (env : Env) (items_to_load : list (ProcessDialog.Item * Z)) : Run Emitted unit :=
  for_each items_to_load (load env) [].

(** The process of [pid] has an icon to show, taken from [path]. *)
Definition has_icon (env : Env) (pid : Z) (path : string) : Prop :=
  process env pid = Returns tt
  /\ exe env pid = Returns path
  /\ PyStr.truthy path = true
  /\ is_null env path = false.

(** Every failure is one of those the loop expects. *)
Definition expected (r : Result unit) (r' : Result string) : Prop :=
  (forall e, r = Raises e ->
             Exc.caught_by [Exc.NoSuchProcess; Exc.AccessDenied; Exc.FileNotFoundError] e = true)
  /\ (forall e, r' = Raises e ->
             Exc.caught_by [Exc.NoSuchProcess; Exc.AccessDenied; Exc.FileNotFoundError] e = true).

Definition only_expected_errors (env : Env) (items : list (ProcessDialog.Item * Z)) : Prop :=
  forall item pid, (item, pid) ∈ items -> expected (process env pid) (exe env pid).

(** An environment for the examples: PID 100 has an icon, 200 has an
    executable without one, 300 has no path, 400 is gone, 500 denies
    access to its path. *)
Definition sample_env : Env :=
  {| process := fun pid =>
       if pid =? 400 then Raises (Exn Exc.NoSuchProcess "psutil.NoSuchProcess" 0)
       else Returns tt;
     exe := fun pid =>
       if pid =? 100 then Returns "C:\Chrome.exe"
       else if pid =? 200 then Returns "C:\tool.exe"
       else if pid =? 300 then Returns ""
       else Raises (Exn Exc.AccessDenied "psutil.AccessDenied" 0);
     is_null := fun path => String.eqb path "C:\tool.exe" |}.

Definition sample_items : list (ProcessDialog.Item * Z) :=
  [ ({| ProcessDialog.text := "Chrome.exe"; ProcessDialog.user_pid := Some 100 |}, 100);
    ({| ProcessDialog.text := "tool.exe"; ProcessDialog.user_pid := Some 200 |}, 200);
    ({| ProcessDialog.text := "System"; ProcessDialog.user_pid := Some 300 |}, 300);
    ({| ProcessDialog.text := "gone.exe"; ProcessDialog.user_pid := Some 400 |}, 400);
    ({| ProcessDialog.text := "svc.exe"; ProcessDialog.user_pid := Some 500 |}, 500) ].

End IconLoaderThread.

(** From here on, what is evaluated is evaluated with [PyStr.ascii_cyrillic]
    wherever no pair is named. *)
#[global] Existing Instance PyStr.ascii_cyrillic.

(** * Examples for the string functions *)

Example lower_ctrl : PyStr.lower "Ctrl+ALT+k" = "ctrl+alt+k".
Proof. reflexivity. Qed.

Example lower_cyrillic : PyStr.lower "Й" = "й" /\ PyStr.lower "Я" = "я" /\ PyStr.lower "Ё" = "ё".
Proof. repeat split; reflexivity. Qed.

Example strip_example : PyStr.strip "  ctrl " = "ctrl" /\ PyStr.strip "page up" = "page up".
Proof. split; reflexivity. Qed.

Example split_example :
  PyStr.split "+" "ctrl+alt+k" = ["ctrl"; "alt"; "k"]
  /\ PyStr.split "+" "" = [""]
  /\ PyStr.split "+" "a++b" = ["a"; ""; "b"].
Proof. repeat split; reflexivity. Qed.

Example join_example : PyStr.join " + " ["ctrl"; "k"] = "ctrl + k".
Proof. reflexivity. Qed.

Example issubclass_examples :
  Exc.issubclass Exc.ZombieProcess Exc.NoSuchProcess = true
  /\ Exc.issubclass Exc.CalledProcessError Exc.Exception = true
  /\ Exc.issubclass Exc.KeyboardInterrupt Exc.Exception = false
  /\ Exc.issubclass Exc.KeyboardInterrupt Exc.BaseException = true
  /\ Exc.issubclass Exc.AccessDenied Exc.NoSuchProcess = false.
Proof. repeat split; reflexivity. Qed.

(** * Properties *)

(** ** Laws of the monad used below *)

Section MonadFacts.
Context {S A B : Type}.

Lemma run_eta (r : Run S A) : MkRun (result r) (final r) (trace r) = r.
Proof. destruct r. reflexivity. Qed.

Lemma bind_returns (m : M S A) (k : A -> M S B) (s : S) (a : A) :
  result (m s) = Returns a ->
  bind m k s = MkRun (result (k a (final (m s))))
                     (final (k a (final (m s))))
                     (trace (m s) ++ trace (k a (final (m s)))).
Proof.
  intros H. unfold bind. destruct (m s) as [[a'|e] s1 t1]; simpl in *; [|discriminate].
  injection H as ->. destruct (k a s1). reflexivity.
Qed.

Lemma bind_raises (m : M S A) (k : A -> M S B) (s : S) (e : exn) :
  result (m s) = Raises e ->
  bind m k s = MkRun (Raises e) (final (m s)) (trace (m s)).
Proof.
  intros H. unfold bind. destruct (m s) as [[a'|e'] s1 t1]; simpl in *; [discriminate|].
  injection H as ->. reflexivity.
Qed.

Lemma try_finally_trace (body : M S A) (cleanup : M S unit) (s : S) :
  trace (try_finally body cleanup s)
  = trace (body s) ++ trace (cleanup (final (body s))).
Proof.
  unfold try_finally. destruct (body s) as [r1 s1 t1]. simpl.
  destruct (cleanup s1) as [[u|e] s2 t2]; reflexivity.
Qed.

Lemma try_finally_result (body : M S A) (cleanup : M S unit) (s : S) (u : unit) :
  result (cleanup (final (body s))) = Returns u ->
  result (try_finally body cleanup s) = result (body s).
Proof.
  unfold try_finally. destruct (body s) as [r1 s1 t1]. simpl.
  destruct (cleanup s1) as [[u'|e] s2 t2]; simpl; [reflexivity|discriminate].
Qed.

End MonadFacts.

Section BindFacts.
Context {S B : Type}.

Lemma bind_modify (f : S -> S) (k : unit -> M S B) (s : S) :
  bind (modify f) k s = k tt (f s).
Proof. unfold bind, modify. destruct (k tt (f s)). reflexivity. Qed.

Lemma bind_gets {A} (f : S -> A) (k : A -> M S B) (s : S) :
  bind (gets f) k s = k (f s) s.
Proof. unfold bind, gets. destruct (k (f s) s). reflexivity. Qed.

Lemma bind_get (k : S -> M S B) (s : S) :
  bind get k s = k s s.
Proof. unfold bind, get. destruct (k s s). reflexivity. Qed.

Lemma bind_ret {A} (a : A) (k : A -> M S B) (s : S) :
  bind (ret a) k s = k a s.
Proof. unfold bind, ret. destruct (k a s). reflexivity. Qed.

Lemma bind_emit (ev : Event) (k : unit -> M S B) (s : S) :
  bind (emit ev) k s
  = MkRun (result (k tt s)) (final (k tt s)) (ev :: trace (k tt s)).
Proof. unfold bind, emit. destruct (k tt s). reflexivity. Qed.

Lemma bind_answer_returns {A} (ev : Event) (a : A) (k : A -> M S B) (s : S) :
  bind (answer ev (Returns a)) k s
  = MkRun (result (k a s)) (final (k a s)) (ev :: trace (k a s)).
Proof. unfold bind, answer. destruct (k a s). reflexivity. Qed.

Lemma bind_answer_raises {A} (ev : Event) (e : exn) (k : A -> M S B) (s : S) :
  bind (answer ev (Raises e)) k s = MkRun (Raises e) s [ev].
Proof. reflexivity. Qed.

Lemma bind_raise {A} (e : exn) (k : A -> M S B) (s : S) :
  bind (raise e) k s = MkRun (Raises e) s [].
Proof. reflexivity. Qed.

End BindFacts.

(** ** The hotkey listener thread *)

Section HotkeyListenerFacts.
Import HotkeyListener.
Variable env : Env.
Variable hk : string.

Lemma cleanup_trace : trace (cleanup env hk tt) = [KeyboardRemoveHotkey hk].
Proof.
  unfold cleanup, try_except, answer. simpl.
  destruct (remove_hotkey env hk) as [u|e]; simpl; [reflexivity|].
  match goal with |- context [if ?b then _ else _] => destruct b end; reflexivity.
Qed.

Lemma unit_state (s : unit) : s = tt.
Proof. destruct s. reflexivity. Qed.

Lemma cleanup_swallows (e : exn) :
  remove_hotkey env hk = Raises e ->
  Exc.caught_by [Exc.KeyError; Exc.ValueError] e = true ->
  result (cleanup env hk tt) = Returns tt.
Proof.
  intros Hrm Hc. unfold cleanup, try_except, answer. simpl.
  rewrite Hrm. simpl. simpl in Hc. rewrite Hc. reflexivity.
Qed.

Lemma wait_loop_returns (n : nat) : result (wait_loop n tt) = Returns tt.
Proof.
  induction n as [|n IH]; [reflexivity|].
  cbn [wait_loop]. rewrite bind_emit. exact IH.
Qed.

Lemma body_returns :
  add_hotkey env hk = Returns tt -> result (body env hk tt) = Returns tt.
Proof.
  intros Hadd. unfold body. rewrite Hadd, bind_answer_returns.
  apply wait_loop_returns.
Qed.

Lemma body_raises (e : exn) :
  add_hotkey env hk = Raises e ->
  result (body env hk tt) = Raises e /\ trace (body env hk tt) = [KeyboardAddHotkey hk].
Proof.
  intros Hadd. unfold body. rewrite Hadd, bind_answer_raises. split; reflexivity.
Qed.

End HotkeyListenerFacts.

(** C7, as the code has it.  Whatever the [keyboard] library answers and
    however long the thread is left running, [HotkeyListener.run] ends
    with an attempt to remove the hotkey it was built with: after a normal
    stop, and also when the registration itself raised (then nothing but
    the registration precedes the removal).  A removal that raises
    [KeyError] or [ValueError] (or one of their subclasses) is swallowed,
    and [run] then ends as its [try] body ended: it returns normally when
    the hotkey was registered and the thread stopped, and it raises the
    exception of the registration when the registration failed. *)
Theorem hotkey_listener_run_always_removes (env : HotkeyListener.Env) (hk : string) :
  let r := HotkeyListener.run env hk tt in
  last (trace r) = Some (KeyboardRemoveHotkey hk)
  /\ (forall e, HotkeyListener.add_hotkey env hk = Raises e ->
        trace r = [KeyboardAddHotkey hk; KeyboardRemoveHotkey hk])
  /\ (HotkeyListener.remove_hotkey env hk = Returns tt
      \/ (exists e, HotkeyListener.remove_hotkey env hk = Raises e
                    /\ Exc.caught_by [Exc.KeyError; Exc.ValueError] e = true) ->
      result r = result (HotkeyListener.body env hk tt)
      /\ (HotkeyListener.add_hotkey env hk = Returns tt -> result r = Returns tt)
      /\ (forall e, HotkeyListener.add_hotkey env hk = Raises e -> result r = Raises e)).
Proof.
  intros r. subst r. unfold HotkeyListener.run.
  pose proof (unit_state (final (HotkeyListener.body env hk tt))) as Hf.
  split; [|split].
  - rewrite try_finally_trace, Hf, cleanup_trace. apply last_snoc.
  - intros e Hadd. rewrite try_finally_trace, Hf, cleanup_trace.
    destruct (body_raises env hk e Hadd) as [_ ->]. reflexivity.
  - intros Hrm.
    assert (result (HotkeyListener.cleanup env hk tt) = Returns tt) as Hclean.
    { destruct Hrm as [Hrm|(e & Hrm & Hc)].
      - unfold HotkeyListener.cleanup, try_except, answer. rewrite Hrm. reflexivity.
      - eapply cleanup_swallows; eassumption. }
    assert (result (try_finally (HotkeyListener.body env hk)
                                (HotkeyListener.cleanup env hk) tt)
            = result (HotkeyListener.body env hk tt)) as Hres.
    { apply (try_finally_result _ _ _ tt). rewrite Hf. exact Hclean. }
    rewrite Hres. split; [reflexivity|]. split.
    + intros Hadd. apply body_returns, Hadd.
    + intros e Hadd. destruct (body_raises env hk e Hadd) as [-> _]. reflexivity.
Qed.

(** A listener whose hotkey the library rejects: registration raises
    [ValueError], removal raises [KeyError]; the removal is attempted and
    swallowed, and the [ValueError] of the registration is what [run]
    ends with. *)
Example hotkey_listener_invalid_hotkey :
  let env := {| HotkeyListener.add_hotkey := fun _ => Raises (Exn Exc.ValueError "invalid" 0);
                HotkeyListener.remove_hotkey := fun _ => Raises (Exn Exc.KeyError "missing" 0);
                HotkeyListener.polls := 3 |} in
  let r := HotkeyListener.run env "ctrl + ?" tt in
  trace r = [KeyboardAddHotkey "ctrl + ?"; KeyboardRemoveHotkey "ctrl + ?"]
  /\ result r = Raises (Exn Exc.ValueError "invalid" 0).
Proof. split; reflexivity. Qed.

Example hotkey_listener_normal_stop :
  let env := {| HotkeyListener.add_hotkey := fun _ => Returns tt;
                HotkeyListener.remove_hotkey := fun _ => Raises (Exn Exc.KeyError "missing" 0);
                HotkeyListener.polls := 2 |} in
  let r := HotkeyListener.run env "ctrl + k" tt in
  trace r = [KeyboardAddHotkey "ctrl + k"; MSleep 100; MSleep 100;
             KeyboardRemoveHotkey "ctrl + k"]
  /\ result r = Returns tt.
Proof. split; reflexivity. Qed.

(** ** [kill_connections] *)

Section KillConnectionsFacts.
Context {U : PyStr.Unicode}.
Import MainWindow.
Variable base_path : string.
Variable env : Env.

(** The four ways a call can go. *)
Lemma kill_connections_guarded (w : t) :
  is_paused w || negb (PyStr.truthy_opt (selected_process w)) = true ->
  kill_connections base_path env w = MkRun (Returns tt) w [].
Proof.
  intros H. unfold kill_connections, bind, get. simpl. rewrite H. reflexivity.
Qed.

Lemma kill_connections_no_tool (w : t) :
  is_paused w || negb (PyStr.truthy_opt (selected_process w)) = false ->
  path_exists env (CPORTS_PATH base_path) = false ->
  result (kill_connections base_path env w) = Returns tt
  /\ final (kill_connections base_path env w) = w
  /\ exists msg, trace (kill_connections base_path env w) = [Print msg].
Proof.
  intros H Hp. unfold kill_connections, bind, get. simpl. rewrite H, Hp. simpl.
  repeat split. eexists. reflexivity.
Qed.

Lemma kill_connections_launch (w : t) (target : string) :
  is_paused w = false ->
  selected_process w = Some target ->
  PyStr.truthy target = true ->
  path_exists env (CPORTS_PATH base_path) = true ->
  final (kill_connections base_path env w) = w
  /\ match launch env (cports_command base_path target) with
     | Returns rc =>
         if rc =? 0 then
           result (kill_connections base_path env w) = Returns tt
           /\ trace (kill_connections base_path env w)
              = [SubprocessRun (cports_command base_path target) true true]
         else
           result (kill_connections base_path env w) = Returns tt
           /\ exists msg, trace (kill_connections base_path env w)
              = [SubprocessRun (cports_command base_path target) true true; Print msg]
     | Raises e =>
         if Exc.isinstance e Exc.Exception then
           result (kill_connections base_path env w) = Returns tt
           /\ exists msg, trace (kill_connections base_path env w)
              = [SubprocessRun (cports_command base_path target) true true; Print msg]
         else
           result (kill_connections base_path env w) = Raises e
           /\ trace (kill_connections base_path env w)
              = [SubprocessRun (cports_command base_path target) true true]
     end.
Proof.
  intros Hp Hs Ht He.
  unfold kill_connections, bind, get. simpl.
  rewrite Hp, Hs. simpl. rewrite Ht, He. simpl.
  unfold try_except, subprocess_run_check, bind, answer, cports_command. simpl.
  destruct (launch env _) as [rc|e]; simpl.
  - destruct (rc =? 0); simpl; repeat split; eauto.
  - unfold Exc.caught_by. simpl.
    destruct (Exc.isinstance e Exc.CalledProcessError) eqn:Hc; simpl.
    + assert (Exc.isinstance e Exc.Exception = true) as ->.
      { unfold Exc.isinstance in *. destruct (Exc.class_of e); vm_compute in Hc |- *; congruence. }
      repeat split; eauto.
    + rewrite orb_false_r.
      destruct (Exc.isinstance e Exc.Exception); simpl; repeat split; eauto.
Qed.

Lemma launch_guard_cases (w : t) :
  is_paused w || negb (PyStr.truthy_opt (selected_process w)) = true
  \/ exists target, is_paused w = false /\ selected_process w = Some target
                    /\ PyStr.truthy target = true.
Proof.
  destruct (is_paused w); [left; reflexivity|].
  destruct (selected_process w) as [target|]; [|left; reflexivity].
  destruct (PyStr.truthy target) eqn:Ht; [|left; simpl; rewrite Ht; reflexivity].
  right. exists target. auto.
Qed.

(** Every event of a call is a line on standard output or the launch of
    [cports.exe] for the selected process, and there is at most one
    launch. *)
Lemma kill_connections_events (w : t) :
  forallb (fun ev => is_print ev || is_launch ev)
          (trace (kill_connections base_path env w)) = true
  /\ (filter (fun ev => is_launch ev = true) (trace (kill_connections base_path env w)) = []
      \/ exists target, selected_process w = Some target
         /\ filter (fun ev => is_launch ev = true) (trace (kill_connections base_path env w))
            = [SubprocessRun (cports_command base_path target) true true]).
Proof.
  destruct (launch_guard_cases w) as [Hg|(target & Hp & Hs & Ht)].
  - rewrite (kill_connections_guarded w Hg). simpl. auto.
  - destruct (path_exists env (CPORTS_PATH base_path)) eqn:He.
    + destruct (kill_connections_launch w target Hp Hs Ht He) as [_ H].
      destruct (launch env _) as [rc|e].
      * destruct (rc =? 0); [destruct H as [_ ->]|destruct H as [_ [msg ->]]];
          (split; [reflexivity|right; exists target; split; [assumption|reflexivity]]).
      * destruct (Exc.isinstance e Exc.Exception);
          [destruct H as [_ [msg ->]]|destruct H as [_ ->]];
          (split; [reflexivity|right; exists target; split; [assumption|reflexivity]]).
    + assert (is_paused w || negb (PyStr.truthy_opt (selected_process w)) = false) as Hg.
      { rewrite Hp, Hs. simpl. rewrite Ht. reflexivity. }
      destruct (kill_connections_no_tool w Hg He) as (_ & _ & msg & ->).
      simpl. auto.
Qed.

Lemma kill_connections_final_state (w : t) :
  final (kill_connections base_path env w) = w.
Proof.
  destruct (launch_guard_cases w) as [Hg|(target & Hp & Hs & Ht)].
  - rewrite (kill_connections_guarded w Hg). reflexivity.
  - destruct (path_exists env (CPORTS_PATH base_path)) eqn:He.
    + destruct (kill_connections_launch w target Hp Hs Ht He) as [-> _]. reflexivity.
    + assert (is_paused w || negb (PyStr.truthy_opt (selected_process w)) = false) as Hg.
      { rewrite Hp, Hs. simpl. rewrite Ht. reflexivity. }
      destruct (kill_connections_no_tool w Hg He) as (_ & -> & _). reflexivity.
Qed.

End KillConnectionsFacts.

(** A window with a target and a registered hotkey, paused from the tray
    menu, the tool in place and every launch succeeding: the press is
    delivered to [kill_connections], which returns without a launch. *)
Example paused_press_launches_nothing :
  let env := {| MainWindow.path_exists := fun _ => true;
                MainWindow.launch := fun _ => Returns 0 |} in
  let selected := MainWindow.set_selected_process (Some "chrome.exe") MainWindow.init in
  let listening := final (MainWindow.set_new_hotkey "ctrl+k" selected) in
  let w := final (MainWindow.toggle_pause listening) in
  MainWindow.registered_hotkeys w = ["ctrl + k"]
  /\ MainWindow.is_paused w = true
  /\ MainWindow.selected_process w = Some "chrome.exe"
  /\ MainWindow.kill_connections "C:\app\assets" env w = MkRun (Returns tt) w [].
Proof. vm_compute. repeat split; reflexivity. Qed.

(** C1, as the code has it.  A press of the hotkey runs
    [kill_connections].  When the window is not paused, a process is
    selected and [cports.exe] exists at its bundled path, the call launches
    exactly one subprocess, the bundled [cports.exe] with the arguments
    [/close * * * * <selected process name>]; when the window is paused,
    no process is selected or the file is missing, it launches nothing.
    In every case the only things the call does are that launch and lines
    printed to standard output: it performs no socket operation itself. *)
Theorem kill_connections_delegates_to_cports
    (base_path : string) (env : MainWindow.Env) (w : MainWindow.t) :
  let r := MainWindow.kill_connections base_path env w in
  filter (fun ev => is_launch ev = true) (trace r)
  = match MainWindow.selected_process w with
    | Some target =>
        if negb (MainWindow.is_paused w) && PyStr.truthy target
           && MainWindow.path_exists env (CPORTS_PATH base_path)
        then [SubprocessRun
                [base_path +:+ "\" +:+ "cports.exe"; "/close"; "*"; "*"; "*"; "*"; target]
                true true]
        else []
    | None => []
    end
  /\ forallb (fun ev => is_print ev || is_launch ev) (trace r) = true.
Proof.
  intros r. subst r.
  split; [|apply kill_connections_events].
  destruct (launch_guard_cases w) as [Hg|(target & Hp & Hs & Ht)].
  - rewrite (kill_connections_guarded base_path env w Hg). simpl.
    destruct (MainWindow.selected_process w) as [target|]; [|reflexivity].
    destruct (MainWindow.is_paused w); [reflexivity|].
    simpl in Hg. apply negb_true_iff in Hg. rewrite Hg. reflexivity.
  - rewrite Hs, Hp, Ht. cbn [negb andb].
    destruct (MainWindow.path_exists env (CPORTS_PATH base_path)) eqn:He.
    + destruct (kill_connections_launch base_path env w target Hp Hs Ht He) as [_ H].
      destruct (MainWindow.launch env _) as [rc|e].
      * destruct (rc =? 0); [destruct H as [_ ->]|destruct H as [_ [msg ->]]]; reflexivity.
      * destruct (Exc.isinstance e Exc.Exception);
          [destruct H as [_ [msg ->]]|destruct H as [_ ->]]; reflexivity.
    + assert (MainWindow.is_paused w
              || negb (PyStr.truthy_opt (MainWindow.selected_process w)) = false) as Hg.
      { rewrite Hp, Hs. simpl. rewrite Ht. reflexivity. }
      destruct (kill_connections_no_tool base_path env w Hg He) as (_ & _ & msg & ->).
      reflexivity.
Qed.

(** C6, as the code has it.  [kill_connections] never changes an
    attribute of the window.  It returns without launching a subprocess
    when the window is paused, when no process is selected, or when
    [cports.exe] does not exist.  When the launch fails by a non-zero
    return code, or by raising an exception that is an [Exception], the
    failure is caught and answered by one printed line naming the target
    ([print] itself is taken to succeed), and the call returns normally.
    An exception of the launch that is not
    an [Exception] ([KeyboardInterrupt], [SystemExit]) is not caught: it is
    what the call ends with. *)
Theorem kill_connections_catches_exceptions
    (base_path : string) (env : MainWindow.Env) (w : MainWindow.t) :
  let r := MainWindow.kill_connections base_path env w in
  final r = w
  /\ (MainWindow.is_paused w = true
      \/ PyStr.truthy_opt (MainWindow.selected_process w) = false
      \/ MainWindow.path_exists env (CPORTS_PATH base_path) = false ->
      result r = Returns tt
      /\ filter (fun ev => is_launch ev = true) (trace r) = [])
  /\ (forall target,
        MainWindow.is_paused w = false ->
        MainWindow.selected_process w = Some target ->
        PyStr.truthy target = true ->
        MainWindow.path_exists env (CPORTS_PATH base_path) = true ->
        let launched := SubprocessRun (MainWindow.cports_command base_path target) true true in
        let logged := fun err =>
          Print ("Failed to kill connections for " +:+ target +:+ ". Error: " +:+ err) in
        match MainWindow.launch env (MainWindow.cports_command base_path target) with
        | Returns rc =>
            result r = Returns tt
            /\ (rc = 0 -> trace r = [launched])
            /\ (rc <> 0 -> exists err, trace r = [launched; logged err])
        | Raises e =>
            if Exc.isinstance e Exc.Exception
            then result r = Returns tt /\ trace r = [launched; logged (Exc.message e)]
            else result r = Raises e /\ trace r = [launched]
        end).
Proof.
  intros r. subst r.
  split; [apply kill_connections_final_state|]. split.
  - intros Hguard.
    destruct (launch_guard_cases w) as [Hg|(target & Hp & Hs & Ht)].
    + rewrite (kill_connections_guarded base_path env w Hg). split; reflexivity.
    + destruct Hguard as [Hc|[Hc|Hc]]; [congruence| |].
      * rewrite Hs in Hc. simpl in Hc. congruence.
      * assert (MainWindow.is_paused w
                || negb (PyStr.truthy_opt (MainWindow.selected_process w)) = false) as Hg.
        { rewrite Hp, Hs. simpl. rewrite Ht. reflexivity. }
        destruct (kill_connections_no_tool base_path env w Hg Hc) as (Hr & _ & msg & Htr).
        rewrite Hr, Htr. split; reflexivity.
  - intros target Hp Hs Ht He. cbv zeta.
    unfold MainWindow.kill_connections. rewrite bind_get, Hp, Hs. cbn [PyStr.truthy_opt].
    rewrite Ht, He. cbn [negb orb].
    unfold try_except, MainWindow.subprocess_run_check, bind, answer, raise, ret, emit.
    fold (MainWindow.cports_command base_path target).
    destruct (MainWindow.launch env (MainWindow.cports_command base_path target)) as [rc|e].
    + destruct (rc =? 0) eqn:Hrc.
      * apply Z.eqb_eq in Hrc. split; [reflexivity|]. split; [reflexivity|congruence].
      * apply Z.eqb_neq in Hrc. cbn.
        split; [reflexivity|]. split; [congruence|]. intros _. eexists. reflexivity.
    + unfold Exc.caught_by. cbn [existsb].
      destruct (Exc.isinstance e Exc.Exception) eqn:Hex.
      * rewrite orb_true_r. cbn. split; reflexivity.
      * assert (Exc.isinstance e Exc.CalledProcessError = false) as ->.
        { unfold Exc.isinstance in *. destruct (Exc.class_of e); vm_compute in Hex |- *;
            congruence. }
        cbn. split; reflexivity.
Qed.

(** A launch interrupted by something that is not an [Exception] is the
    one case the handler lets through. *)
Example kill_connections_keyboard_interrupt :
  let env := {| MainWindow.path_exists := fun _ => true;
                MainWindow.launch :=
                  fun _ => Raises (Exn Exc.KeyboardInterrupt "" 0) |} in
  let w := MainWindow.set_selected_process (Some "chrome.exe") MainWindow.init in
  result (MainWindow.kill_connections "C:\app\assets" env w)
  = Raises (Exn Exc.KeyboardInterrupt "" 0).
Proof. reflexivity. Qed.

(** ** From the dialog to the command line *)

Section ListenerFacts.
Context {U : PyStr.Unicode}.
Import MainWindow.

Lemma start_hotkey_listener_returns (w : t) :
  result (start_hotkey_listener w) = Returns tt.
Proof.
  unfold start_hotkey_listener, bind, get, when, modify. simpl.
  destruct (listener_running (hotkey_listener w)); simpl;
    (destruct (current_hotkey w) as [hk|]; simpl;
     [destruct (PyStr.truthy hk)|]; reflexivity).
Qed.

Lemma start_hotkey_listener_frame (w : t) :
  let w' := final (start_hotkey_listener w) in
  selected_process w' = selected_process w
  /\ is_paused w' = is_paused w
  /\ current_hotkey w' = current_hotkey w
  /\ process_label w' = process_label w.
Proof.
  unfold start_hotkey_listener, bind, get, when, modify. simpl.
  destruct (listener_running (hotkey_listener w)); simpl;
    (destruct (current_hotkey w) as [hk|] eqn:Hk; simpl;
     [destruct (PyStr.truthy hk)|]; simpl; auto).
Qed.

Lemma open_process_dialog_selects (d : ProcessDialog.t) (w : t) (p : string) :
  ProcessDialog.accepted d = true ->
  ProcessDialog.selected_process d = Some p ->
  PyStr.truthy p = true ->
  let w' := final (open_process_dialog d w) in
  selected_process w' = Some p
  /\ is_paused w' = is_paused w
  /\ process_label w' = "Target: " +:+ p.
Proof.
  intros Ha Hs Ht. unfold open_process_dialog. rewrite Ha, Hs, Ht.
  unfold when, bind, get, modify, restart_hotkey_listener, start_hotkey_listener,
    when, bind, get, modify.
  simpl.
  destruct (listener_running (hotkey_listener w)) eqn:Hl; simpl; auto.
  rewrite ?Hl. simpl.
  destruct (current_hotkey w) as [hk|] eqn:Hk; simpl; auto.
  destruct (PyStr.truthy hk) eqn:Hhk; simpl; auto.
Qed.

End ListenerFacts.

(** C5. The process is handed to the tool by its name alone.  When the
    dialog is accepted with a current item, [accept] stores the text of
    that item as the dialog's selected process; the window takes it over
    as its own selected process; and the command line of the next
    [kill_connections] ends with exactly that string (the command holds
    no PID and nothing derived from the name). *)
Theorem selected_item_text_is_last_argument
    (base_path : string) (env : MainWindow.Env) (w : MainWindow.t)
    (d : ProcessDialog.t) (item : ProcessDialog.Item)
    (Hcur : ProcessDialog.currentItem d = Some item)
    (Htext : PyStr.truthy (ProcessDialog.text item) = true)
    (Hrun : MainWindow.is_paused w = false)
    (Htool : MainWindow.path_exists env (CPORTS_PATH base_path) = true) :
  let d' := ProcessDialog.accept d in
  let w' := final (MainWindow.open_process_dialog d' w) in
  ProcessDialog.selected_process d' = Some (ProcessDialog.text item)
  /\ MainWindow.selected_process w' = Some (ProcessDialog.text item)
  /\ exists command,
       filter (fun ev => is_launch ev = true)
              (trace (MainWindow.kill_connections base_path env w'))
       = [SubprocessRun command true true]
       /\ command = [CPORTS_PATH base_path; "/close"; "*"; "*"; "*"; "*";
                     ProcessDialog.text item]
       /\ last command = Some (ProcessDialog.text item).
Proof.
  intros d' w'.
  assert (ProcessDialog.selected_process d' = Some (ProcessDialog.text item)) as Hd.
  { subst d'. unfold ProcessDialog.accept. simpl. rewrite Hcur. reflexivity. }
  destruct (open_process_dialog_selects d' w (ProcessDialog.text item) eq_refl Hd Htext)
    as (Hs & Hp & _).
  fold w' in Hs, Hp. rewrite Hrun in Hp.
  split; [exact Hd|]. split; [exact Hs|].
  exists (MainWindow.cports_command base_path (ProcessDialog.text item)).
  split; [|split; reflexivity].
  destruct (kill_connections_launch base_path env w' _ Hp Hs Htext Htool) as [_ H].
  destruct (MainWindow.launch env _) as [rc|e].
  - destruct (rc =? 0); [destruct H as [_ ->]|destruct H as [_ [msg ->]]]; reflexivity.
  - destruct (Exc.isinstance e Exc.Exception);
      [destruct H as [_ [msg ->]]|destruct H as [_ ->]]; reflexivity.
Qed.

Lemma selected_item_text_is_last_argument_witness :
  let env := {| MainWindow.path_exists := fun _ => true;
                MainWindow.launch := fun _ => Returns 0 |} in
  let item := {| ProcessDialog.text := "chrome.exe"; ProcessDialog.user_pid := Some 4242 |} in
  let d := {| ProcessDialog.process_list_widget :=
                [ {| ProcessDialog.text := "Code.exe"; ProcessDialog.user_pid := Some 17 |};
                  item ];
              ProcessDialog.current_row := Some 1%nat;
              ProcessDialog.selected_process := None;
              ProcessDialog.ok_enabled := true;
              ProcessDialog.video_running := true;
              ProcessDialog.accepted := false |} in
  let w' := final (MainWindow.open_process_dialog (ProcessDialog.accept d) MainWindow.init) in
  ProcessDialog.currentItem d = Some item
  /\ MainWindow.selected_process w' = Some "chrome.exe".
Proof.
  intros env item d w'.
  split; [reflexivity|].
  exact (proj1 (proj2 (selected_item_text_is_last_argument
                         "C:\app\assets" env MainWindow.init d item
                         eq_refl eq_refl eq_refl eq_refl))).
Defined.

Example process_dialog_to_command_line :
  let env := {| MainWindow.path_exists := fun _ => true;
                MainWindow.launch := fun _ => Returns 0 |} in
  let d := {| ProcessDialog.process_list_widget :=
                [ {| ProcessDialog.text := "chrome.exe"; ProcessDialog.user_pid := Some 4242 |} ];
              ProcessDialog.current_row := Some 0%nat;
              ProcessDialog.selected_process := None;
              ProcessDialog.ok_enabled := true;
              ProcessDialog.video_running := true;
              ProcessDialog.accepted := false |} in
  let w' := final (MainWindow.open_process_dialog (ProcessDialog.accept d) MainWindow.init) in
  trace (MainWindow.kill_connections "C:\app\assets" env w')
  = [SubprocessRun ["C:\app\assets\cports.exe"; "/close"; "*"; "*"; "*"; "*"; "chrome.exe"]
                   true true].
Proof. reflexivity. Qed.

(** ** Clearing the hotkey *)

Section ClearHotkeyFacts.
Context {U : PyStr.Unicode}.
Import MainWindow.

Lemma clears_hotkey_iff (captured : string) :
  clears_hotkey captured = true
  <-> captured = "" \/ PyStr.lower captured = "esc" \/ PyStr.lower captured = "backspace".
Proof.
  unfold clears_hotkey, lowered. destruct captured as [|c s].
  - simpl. split; auto.
  - cbn [PyStr.truthy negb orb]. rewrite bool_decide_eq_true.
    rewrite !elem_of_cons, elem_of_nil. split.
    + intros [H|[H|[]]]; auto.
    + intros [H|[H|H]]; [discriminate|auto|auto].
Qed.

Lemma stop_not_running (o : option Listener) :
  listener_running (stop <$> o) = false.
Proof. destruct o; reflexivity. Qed.

Lemma stop_idle (o : option Listener) :
  listener_running o = false -> stop <$> o = o.
Proof.
  destruct o as [[hk r]|]; simpl; [|reflexivity].
  intros ->. reflexivity.
Qed.

(** With no hotkey set, the restart only stops. *)
Lemma start_hotkey_listener_without_hotkey (w : t) :
  current_hotkey w = None ->
  start_hotkey_listener w
  = MkRun (Returns tt) (set_listeners (stop <$> hotkey_listener w) (retired w) w) [].
Proof.
  intros Hk. unfold start_hotkey_listener, bind, get, when, modify. simpl.
  destruct (listener_running (hotkey_listener w)) eqn:Hl; simpl; rewrite Hk; simpl.
  - reflexivity.
  - rewrite (stop_idle _ Hl). destruct w; simpl in *. subst. reflexivity.
Qed.

Lemma registered_after_stop (w : t) :
  retired_stopped w ->
  registered_hotkeys (set_listeners (stop <$> hotkey_listener w) (retired w) w) = [].
Proof.
  unfold retired_stopped, registered_hotkeys, listeners. simpl. intros Hinv.
  assert (filter (fun l => isRunning l = true) (retired w) = []) as Hnil.
  { induction Hinv as [|l ls Hl _ IH]; [reflexivity|].
    rewrite filter_cons. destruct (decide (isRunning l = true)); [congruence|exact IH]. }
  destruct (hotkey_listener w) as [l|]; simpl.
  - rewrite filter_cons. simpl. destruct (decide (false = true)); [discriminate|].
    rewrite Hnil. reflexivity.
  - rewrite Hnil. reflexivity.
Qed.

(** The invariant holds at start-up and every restart keeps it. *)
Lemma init_retired_stopped : retired_stopped init.
Proof. constructor. Qed.

Lemma start_hotkey_listener_keeps_invariant (w : t) :
  retired_stopped w -> retired_stopped (final (start_hotkey_listener w)).
Proof.
  unfold retired_stopped. intros Hinv.
  unfold start_hotkey_listener, bind, get, when, modify. simpl.
  destruct (listener_running (hotkey_listener w)) eqn:Hl; simpl;
    (destruct (current_hotkey w) as [hk|]; simpl; [destruct (PyStr.truthy hk)|]; simpl;
     try exact Hinv).
  - destruct (hotkey_listener w) as [l|]; simpl; [|exact Hinv].
    constructor; [reflexivity|exact Hinv].
  - destruct (hotkey_listener w) as [l|]; simpl; [|exact Hinv].
    constructor; [exact Hl|exact Hinv].
Qed.

(** The whole run of the clearing branch. *)
Lemma set_new_hotkey_clear_run (captured : string) (w : t) :
  clears_hotkey captured = true ->
  set_new_hotkey captured w
  = MkRun (Returns tt)
          (set_button_text SetHotkeyText
             (set_listeners (stop <$> hotkey_listener w) (retired w)
                (set_current_hotkey None (set_button_enabled true w))))
          [].
Proof.
  intros Hc. unfold set_new_hotkey. rewrite Hc.
  unfold update_listener_and_button, restart_hotkey_listener, start_hotkey_listener,
    bind, get, gets, when, modify.
  simpl.
  destruct (listener_running (hotkey_listener w)) eqn:Hl; simpl.
  - reflexivity.
  - rewrite (stop_idle _ Hl). destruct w; reflexivity.
Qed.

End ClearHotkeyFacts.

(** C8. When the captured hotkey is the empty string, or is [esc] or
    [backspace] in any mix of upper and lower case, [set_new_hotkey]
    returns with [current_hotkey] set to [None]; the restart that follows
    stops the listener the window holds, if there is one, and creates no
    new listener object; so, the earlier listeners having been stopped
    when they were replaced, no listener is running afterwards and no
    hotkey remains registered. *)
Theorem set_new_hotkey_clears {U : PyStr.Unicode} (captured : string) (w : MainWindow.t)
    (Hkey : captured = "" \/ PyStr.lower captured = "esc"
            \/ PyStr.lower captured = "backspace")
    (Hinv : MainWindow.retired_stopped w) :
  let r := MainWindow.set_new_hotkey captured w in
  result r = Returns tt
  /\ MainWindow.current_hotkey (final r) = None
  /\ MainWindow.hotkey_listener (final r)
     = MainWindow.stop <$> MainWindow.hotkey_listener w
  /\ MainWindow.listener_running (MainWindow.hotkey_listener (final r)) = false
  /\ MainWindow.retired (final r) = MainWindow.retired w
  /\ MainWindow.registered_hotkeys (final r) = [].
Proof.
  intros r. subst r.
  apply clears_hotkey_iff in Hkey.
  rewrite (set_new_hotkey_clear_run captured w Hkey). cbn [result final].
  repeat split.
  - apply stop_not_running.
  - apply (registered_after_stop
             (MainWindow.set_current_hotkey None (MainWindow.set_button_enabled true w))).
    exact Hinv.
Qed.

Lemma set_new_hotkey_clears_witness :
  let w := final (MainWindow.set_new_hotkey "ctrl+k"
                    (MainWindow.set_selected_process (Some "chrome.exe") MainWindow.init)) in
  let r := MainWindow.set_new_hotkey "ESC" w in
  (MainWindow.registered_hotkeys w = ["ctrl + k"]
   /\ PyStr.lower "ESC" = "esc"
   /\ MainWindow.retired_stopped w)
  /\ MainWindow.current_hotkey (final r) = None
  /\ MainWindow.registered_hotkeys (final r) = [].
Proof.
  intros w r.
  assert (MainWindow.retired_stopped w) as Hinv by constructor.
  split; [split; [reflexivity|split; [reflexivity|exact Hinv]]|].
  assert ("ESC" = "" \/ PyStr.lower "ESC" = "esc" \/ PyStr.lower "ESC" = "backspace")
    as Hkey by (right; left; reflexivity).
  destruct (set_new_hotkey_clears "ESC" w Hkey Hinv)
    as (_ & Hk & _ & _ & _ & Hreg).
  split; [exact Hk|exact Hreg].
Defined.

(** ** Start-up *)

Section StartupFacts.
Import Main.
Variable env : Env.

Lemma isinstance_base (e : exn) : Exc.isinstance e Exc.BaseException = true.
Proof. unfold Exc.isinstance. destruct (Exc.class_of e); reflexivity. Qed.

(** [is_admin] never raises: it answers what the shell answers, and 0 when
    the call raises, whatever the exception. *)
Lemma is_admin_total :
  is_admin env tt
  = MkRun (Returns (match shell_is_user_an_admin env with
                    | Returns a => a
                    | Raises _ => 0
                    end))
          tt [IsUserAnAdmin].
Proof.
  unfold is_admin, try_except, answer. simpl.
  destruct (shell_is_user_an_admin env) as [a|e]; simpl; [reflexivity|].
  rewrite (isinstance_base e). reflexivity.
Qed.

(** The run up to the admin check. *)
Lemma start_not_admin (z : Z) :
  set_app_id env = Returns tt ->
  (shell_is_user_an_admin env = Returns 0 \/ exists e, shell_is_user_an_admin env = Raises e) ->
  message_box env = Returns z ->
  start env
  = MkRun (Raises (Exn Exc.SystemExit "" 1)) tt
          [SetAppUserModelID myappid; IsUserAnAdmin;
           MessageBoxW admin_message "Administrator Privileges Required" 16].
Proof.
  intros Hid Hadm Hbox.
  unfold start, main, is_admin, try_except, bind, answer, sys_exit, raise, emit, ret.
  simpl. rewrite Hid. simpl.
  destruct Hadm as [H|[e H]]; rewrite H; simpl;
    [|rewrite (isinstance_base e); simpl]; rewrite Hbox; reflexivity.
Qed.

Lemma start_admin (a : Z) :
  set_app_id env = Returns tt ->
  shell_is_user_an_admin env = Returns a ->
  a <> 0 ->
  start env
  = let prefix := [SetAppUserModelID myappid; IsUserAnAdmin; NewQApplication;
                   SharedMemoryAttach lock_key] in
    if attach env then
      MkRun (Raises (Exn Exc.SystemExit "" 0)) tt
            (prefix ++ [ErrorBoxExec "ConnectionBreaker is already running."
                                     "Please check your system tray or task manager."
                                     "Application Already Running"])
    else if create env then
      MkRun (Raises (Exn Exc.SystemExit "" (app_exec env))) tt
            (prefix ++ [SharedMemoryCreate lock_key 1; SetQuitOnLastWindowClosed false;
                        ApplyStylesheet; NewMainWindow; WindowShow; AppExec])
    else
      MkRun (Raises (Exn Exc.SystemExit "" 1)) tt
            (prefix ++ [SharedMemoryCreate lock_key 1;
                        Print ("Error: Could not create shared memory segment: "
                               +:+ error_string env)]).
Proof.
  intros Hid Hadm Hne. apply Z.eqb_neq in Hne.
  unfold start, main, is_admin, try_except, bind, answer, sys_exit, raise, emit, ret.
  simpl. rewrite Hid. simpl. rewrite Hadm. simpl. rewrite Hne. simpl.
  destruct (attach env); simpl; [reflexivity|].
  destruct (create env); reflexivity.
Qed.

End StartupFacts.

(** C4. When the administrator check fails, because [IsUserAnAdmin]
    answers 0 or because the call raises (whatever it raises), the program
    shows the error message box and ends with exit code 1; up to that
    point it has constructed no [QApplication], no window and no dialog,
    and has not touched the shared-memory lock. *)
Theorem not_admin_exits_before_lock (env : Main.Env) (z : Z)
    (Hid : Main.set_app_id env = Returns tt)
    (Hadm : Main.shell_is_user_an_admin env = Returns 0
            \/ exists e, Main.shell_is_user_an_admin env = Raises e)
    (Hbox : Main.message_box env = Returns z) :
  let r := Main.start env in
  last (trace r)
  = Some (MessageBoxW Main.admin_message "Administrator Privileges Required" 16)
  /\ Main.exit_code (result r) = 1
  /\ filter (fun ev => Main.makes_window ev = true) (trace r) = []
  /\ filter (fun ev => Main.touches_lock ev = true) (trace r) = [].
Proof.
  intros r. subst r. rewrite (start_not_admin env z Hid Hadm Hbox).
  repeat split; reflexivity.
Qed.

Lemma not_admin_exits_before_lock_witness :
  let env := {| Main.set_app_id := Returns tt;
                Main.shell_is_user_an_admin :=
                  Raises (Exn Exc.OSError "exception: access violation" 0);
                Main.message_box := Returns 1;
                Main.attach := false;
                Main.create := true;
                Main.error_string := "";
                Main.app_exec := 0 |} in
  (Main.shell_is_user_an_admin env = Returns 0
   \/ exists e, Main.shell_is_user_an_admin env = Raises e)
  /\ Main.exit_code (result (Main.start env)) = 1.
Proof.
  intros env.
  assert (Main.shell_is_user_an_admin env = Returns 0
          \/ exists e, Main.shell_is_user_an_admin env = Raises e) as H.
  { right. eexists. reflexivity. }
  split; [exact H|].
  exact (proj1 (proj2 (not_admin_exits_before_lock env 1 eq_refl H eq_refl))).
Defined.

(** C3. Once the administrator check has passed, the program attaches to
    the shared-memory key [ConnectionBreaker_SingleInstance_Lock].  If the
    attach succeeds it shows the error dialog and exits with code 0,
    having created no main window.  Otherwise it creates a segment of one
    byte under that key; if the creation fails it exits with code 1, again
    without a main window, and if it succeeds it goes on to create and
    show the main window and to run the application, whose status becomes
    the exit code. *)
Theorem single_instance_lock (env : Main.Env) (a : Z)
    (Hid : Main.set_app_id env = Returns tt)
    (Hadm : Main.shell_is_user_an_admin env = Returns a)
    (Hne : a <> 0) :
  let r := Main.start env in
  let new_window := Main.creates_main_window in
  Main.lock_key = "ConnectionBreaker_SingleInstance_Lock"
  /\ filter (fun ev => Main.touches_lock ev = true) (trace r)
     = SharedMemoryAttach Main.lock_key
       :: (if Main.attach env then [] else [SharedMemoryCreate Main.lock_key 1])
  /\ (Main.attach env = true ->
      last (trace r)
      = Some (ErrorBoxExec "ConnectionBreaker is already running."
                           "Please check your system tray or task manager."
                           "Application Already Running")
      /\ Main.exit_code (result r) = 0
      /\ existsb new_window (trace r) = false)
  /\ (Main.attach env = false -> Main.create env = false ->
      Main.exit_code (result r) = 1
      /\ existsb new_window (trace r) = false)
  /\ (Main.attach env = false -> Main.create env = true ->
      existsb new_window (trace r) = true
      /\ last (trace r) = Some AppExec
      /\ Main.exit_code (result r) = Main.app_exec env).
Proof.
  intros r new_window. subst r.
  rewrite (start_admin env a Hid Hadm Hne). cbv zeta.
  split; [reflexivity|].
  destruct (Main.attach env); [|destruct (Main.create env)];
    (split; [reflexivity|]);
    repeat split; try reflexivity; try discriminate.
Qed.

Lemma single_instance_lock_witness :
  let env := {| Main.set_app_id := Returns tt;
                Main.shell_is_user_an_admin := Returns 1;
                Main.message_box := Returns 1;
                Main.attach := true;
                Main.create := true;
                Main.error_string := "";
                Main.app_exec := 0 |} in
  (1 <> 0)
  /\ filter (fun ev => Main.touches_lock ev = true) (trace (Main.start env))
     = [SharedMemoryAttach "ConnectionBreaker_SingleInstance_Lock"].
Proof.
  intros env.
  assert (1 <> 0) as H by lia.
  split; [exact H|].
  exact (proj1 (proj2 (single_instance_lock env 1 eq_refl eq_refl H))).
Defined.

(** ** The process list *)

Section ProcessLoaderFacts.
Context {U : PyStr.Unicode}.
Import ProcessLoaderThread.
Variable env : Env.

Lemma initial_invariant : Invariant env initial.
Proof.
  split; simpl.
  - constructor.
  - intros i Hi. inversion Hi.
  - intros i Hi. inversion Hi.
Qed.

Lemma append_invariant (st : Locals) (pid : Z) (n : string) (c : string) (cl : list string) :
  Invariant env st ->
  pid ∈ pids env ->
  process (observe env pid) = Returns tt ->
  name (observe env pid) = Returns n ->
  cmdline (observe env pid) = Returns (c :: cl) ->
  PyStr.lower n ∉ added_process_names st ->
  Invariant env (append_info {| pi_name := n; pi_pid := pid |}
                             (add_name (PyStr.lower n) st)).
Proof.
  intros [Hnd Hadd Hgen] Hpid Hp Hn Hc Hnew. split; simpl.
  - rewrite fmap_app. apply NoDup_app. split; [exact Hnd|]. split.
    + intros k Hk Hk'. apply list_elem_of_singleton in Hk'. subst k.
      apply list_elem_of_fmap in Hk as (i & Hi & Hin).
      apply Hnew. unfold key in Hi. simpl in Hi. rewrite Hi. apply Hadd, Hin.
    + apply NoDup_singleton.
  - intros i Hi. apply elem_of_app in Hi as [Hi|Hi].
    + apply elem_of_union_r, Hadd, Hi.
    + apply list_elem_of_singleton in Hi. subst i.
      apply elem_of_union_l, elem_of_singleton. reflexivity.
  - intros i Hi. apply elem_of_app in Hi as [Hi|Hi]; [apply Hgen, Hi|].
    apply list_elem_of_singleton in Hi. subst i.
    repeat split; simpl; try assumption.
    exists (c :: cl). split; [assumption|discriminate].
Qed.

(** One iteration keeps the invariant, whether it appends, skips or
    raises. *)
Lemma visit_invariant (st : Locals) (pid : Z) :
  Invariant env st -> pid ∈ pids env -> Invariant env (final (visit env pid st)).
Proof.
  intros Hinv Hpid.
  unfold visit, try_except, bind, answer, gets, modify, ret. simpl.
  destruct (process (observe env pid)) as [[]|e] eqn:Hp; simpl.
  2: { match goal with |- context [if ?b then _ else _] => destruct b end; exact Hinv. }
  destruct (name (observe env pid)) as [n|e] eqn:Hn; simpl.
  2: { match goal with |- context [if ?b then _ else _] => destruct b end; exact Hinv. }
  destruct (bool_decide (PyStr.lower n ∈ added_process_names st)) eqn:Hin; simpl;
    [exact Hinv|].
  apply bool_decide_eq_false in Hin.
  destruct (cmdline (observe env pid)) as [[|c cl]|e] eqn:Hc; simpl.
  - exact Hinv.
  - eapply append_invariant; eassumption.
  - match goal with |- context [if ?b then _ else _] => destruct b end; exact Hinv.
Qed.

(** One iteration returns when the process fails only in the ways the
    loop expects. *)
Lemma visit_returns (st : Locals) (pid : Z) :
  skippable (process (observe env pid)) ->
  skippable (name (observe env pid)) ->
  skippable (cmdline (observe env pid)) ->
  result (visit env pid st) = Returns tt.
Proof.
  unfold skippable. intros Sp Sn Sc.
  unfold visit, try_except, bind, answer, gets, modify, ret. simpl.
  destruct (process (observe env pid)) as [[]|e]; simpl.
  2: { simpl in Sp. rewrite Sp. reflexivity. }
  destruct (name (observe env pid)) as [n|e]; simpl.
  2: { simpl in Sn. rewrite Sn. reflexivity. }
  destruct (bool_decide (PyStr.lower n ∈ added_process_names st)); simpl;
    [reflexivity|].
  destruct (cmdline (observe env pid)) as [[|c cl]|e]; simpl; try reflexivity.
  simpl in Sc. rewrite Sc. reflexivity.
Qed.

Lemma for_each_invariant (xs : list Z) (st : Locals) :
  Invariant env st ->
  (forall pid, pid ∈ xs -> pid ∈ pids env) ->
  Invariant env (final (for_each xs (visit env) st)).
Proof.
  revert st. induction xs as [|pid rest IH]; intros st Hinv Hsub; [exact Hinv|].
  cbn [for_each].
  pose proof (visit_invariant st pid Hinv (Hsub pid (list_elem_of_here _ _))) as Hv.
  destruct (result (visit env pid st)) as [[]|e] eqn:Hr;
    [rewrite (bind_returns _ _ _ tt Hr)|rewrite (bind_raises _ _ _ e Hr)];
    cbn [final]; [|exact Hv].
  apply IH; [exact Hv|].
  intros q Hq. apply Hsub. apply list_elem_of_further, Hq.
Qed.

Lemma for_each_returns (xs : list Z) (st : Locals) :
  only_psutil_errors env ->
  (forall pid, pid ∈ xs -> pid ∈ pids env) ->
  result (for_each xs (visit env) st) = Returns tt.
Proof.
  intros Hok. revert st. induction xs as [|pid rest IH]; intros st Hsub; [reflexivity|].
  cbn [for_each].
  destruct (Hok pid (Hsub pid (list_elem_of_here _ _))) as (Sp & Sn & Sc).
  rewrite (bind_returns _ _ _ tt (visit_returns st pid Sp Sn Sc)). cbn [result].
  apply IH. intros q Hq. apply Hsub. apply list_elem_of_further, Hq.
Qed.

(** The run is the loop followed by the emission of the list. *)
Lemma run_unfold :
  let loop := for_each (pids env) (visit env) initial in
  run env
  = match result loop with
    | Returns _ =>
        MkRun (Returns tt) (final loop)
              (PsutilPids :: trace loop ++ [EmitProcessesReady (process_list (final loop))])
    | Raises e => MkRun (Raises e) (final loop) (PsutilPids :: trace loop)
    end.
Proof.
  unfold run, run_body. rewrite bind_emit.
  destruct (result (for_each (pids env) (visit env) initial)) as [[]|e] eqn:Hr;
    [rewrite (bind_returns _ _ _ tt Hr)|rewrite (bind_raises _ _ _ e Hr)];
    cbn [result final trace]; [|reflexivity].
  rewrite bind_gets. reflexivity.
Qed.

(** Whenever a list is emitted, it satisfies the invariant. *)
Lemma emitted_invariant (l : list ProcessInfo) :
  emitted env = Some l ->
  NoDup (key <$> l) /\ forall i, i ∈ l -> genuine env i.
Proof.
  unfold emitted. destruct (result (run env)); [|discriminate].
  intros [= <-].
  assert (Invariant env (final (run env))) as [Hnd _ Hgen].
  { pose proof run_unfold as Hrun. cbv zeta in Hrun. rewrite Hrun.
    pose proof (for_each_invariant (pids env) initial initial_invariant (fun _ H => H)) as Hinv.
    destruct (result (for_each (pids env) (visit env) initial)); exact Hinv. }
  split; assumption.
Qed.

End ProcessLoaderFacts.

(** C9. When the processes fail only by disappearing, denying access or
    being zombies, [ProcessLoaderThread.run] completes and its last action
    is to emit a list in which no two entries have names that are equal
    after lower-casing, and every entry pairs a name with a PID of the
    enumeration whose process answered all three queries, gave that name,
    and has a non-empty command line.  A process that raised one of the
    three exceptions at any query is therefore not in the list, and did
    not stop the enumeration. *)
Theorem process_list_unique_and_genuine {U : PyStr.Unicode} (env : ProcessLoaderThread.Env)
    (Hok : ProcessLoaderThread.only_psutil_errors env) :
  exists l,
    result (ProcessLoaderThread.run env) = Returns tt
    /\ ProcessLoaderThread.emitted env = Some l
    /\ last (trace (ProcessLoaderThread.run env)) = Some (EmitProcessesReady l)
    /\ NoDup ((fun i => PyStr.lower (pi_name i)) <$> l)
    /\ forall i, i ∈ l ->
         pi_pid i ∈ ProcessLoaderThread.pids env
         /\ ProcessLoaderThread.process (ProcessLoaderThread.observe env (pi_pid i))
            = Returns tt
         /\ ProcessLoaderThread.name (ProcessLoaderThread.observe env (pi_pid i))
            = Returns (pi_name i)
         /\ exists cl,
              ProcessLoaderThread.cmdline (ProcessLoaderThread.observe env (pi_pid i))
              = Returns cl
              /\ cl <> [].
Proof.
  pose proof (run_unfold env) as Hrun. cbv zeta in Hrun.
  pose proof (for_each_returns env (ProcessLoaderThread.pids env)
                ProcessLoaderThread.initial Hok (fun _ H => H)) as Hret.
  rewrite Hret in Hrun.
  assert (ProcessLoaderThread.emitted env
          = Some (ProcessLoaderThread.process_list (final (ProcessLoaderThread.run env))))
    as Hem.
  { unfold ProcessLoaderThread.emitted. rewrite Hrun. reflexivity. }
  eexists. split; [rewrite Hrun; reflexivity|].
  split; [exact Hem|].
  split.
  { rewrite Hrun at 1. cbn [trace final].
    rewrite app_comm_cons, last_snoc. rewrite Hrun. reflexivity. }
  destruct (emitted_invariant env _ Hem) as [Hnd Hgen].
  split; [exact Hnd|exact Hgen].
Qed.


Example sample_process_list :
  ProcessLoaderThread.emitted ProcessLoaderThread.sample_env
  = Some [ {| pi_name := "Chrome.exe"; pi_pid := 100 |} ].
Proof. vm_compute. reflexivity. Qed.

Lemma process_list_unique_and_genuine_witness :
  ProcessLoaderThread.only_psutil_errors ProcessLoaderThread.sample_env
  /\ result (ProcessLoaderThread.run ProcessLoaderThread.sample_env) = Returns tt.
Proof.
  assert (ProcessLoaderThread.only_psutil_errors ProcessLoaderThread.sample_env) as H.
  { intros pid Hpid. simpl in Hpid.
    repeat (apply elem_of_cons in Hpid as [->|Hpid]);
      [| | | | |inversion Hpid]; vm_compute; auto. }
  split; [exact H|].
  destruct (process_list_unique_and_genuine ProcessLoaderThread.sample_env H)
    as (l & Hr & _).
  exact Hr.
Defined.

(** An exception the loop does not expect ends the thread before anything
    is emitted. *)
Example process_loader_unexpected_error :
  let env := {| ProcessLoaderThread.pids := [7];
                ProcessLoaderThread.observe := fun _ =>
                  {| ProcessLoaderThread.process := Returns tt;
                     ProcessLoaderThread.name :=
                       Raises (Exn Exc.OSError "WinError 1722" 0);
                     ProcessLoaderThread.cmdline := Returns [] |} |} in
  ProcessLoaderThread.emitted env = None.
Proof. vm_compute. reflexivity. Qed.

(** ** Which hotkeys are accepted *)

Example is_valid_hotkey_examples :
  is_valid_hotkey "ctrl+alt+k" = true
  /\ is_valid_hotkey "ctrl+k" = true
  /\ is_valid_hotkey "k" = true
  /\ is_valid_hotkey "a+b" = false
  /\ is_valid_hotkey "ctrl+alt" = false
  /\ is_valid_hotkey "" = false
  /\ is_valid_hotkey "Ctrl + K" = true.
Proof. vm_compute. repeat split; reflexivity. Qed.

(** [ctrl+alt+k] is one key with two modifiers, and is valid for
    [is_valid_hotkey]; captured, it is turned down and the current hotkey
    stays what it was.  [a+b] has two non-modifier keys; captured, it is
    not turned down: [b] becomes the current hotkey. *)
Example capture_differs_from_validity :
  let w := final (MainWindow.set_new_hotkey "ctrl+alt+k" MainWindow.init) in
  let w' := final (MainWindow.set_new_hotkey "a+b" MainWindow.init) in
  is_valid_hotkey "ctrl+alt+k" = true
  /\ MainWindow.current_hotkey w = None
  /\ MainWindow.set_hotkey_button w = TooManyModifiersText
  /\ MainWindow.registered_hotkeys w = []
  /\ is_valid_hotkey "a+b" = false
  /\ MainWindow.current_hotkey w' = Some "b"
  /\ MainWindow.registered_hotkeys w' = ["b"].
Proof. vm_compute. repeat split; reflexivity. Qed.

Example capture_examples :
  MainWindow.current_hotkey (final (MainWindow.set_new_hotkey "ctrl+k" MainWindow.init))
  = Some "ctrl + k"
  /\ MainWindow.current_hotkey (final (MainWindow.set_new_hotkey "Shift+Й" MainWindow.init))
     = Some "shift + q"
  /\ MainWindow.current_hotkey (final (MainWindow.set_new_hotkey "ctrl+a+d" MainWindow.init))
     = Some "ctrl + d"
  /\ MainWindow.current_hotkey (final (MainWindow.set_new_hotkey "f5" MainWindow.init))
     = Some "f5"
  /\ MainWindow.set_hotkey_button (final (MainWindow.set_new_hotkey "ctrl" MainWindow.init))
     = InvalidCombinationText.
Proof. vm_compute. repeat split; reflexivity. Qed.

Section HotkeyAcceptanceFacts.
Context {U : PyStr.Unicode}.
Import MainWindow.

Lemma split_nonempty (sep : ascii) (s : string) : PyStr.split sep s <> [].
Proof.
  induction s as [|c r IH]; simpl; [discriminate|].
  destruct (Ascii.eqb c sep); [discriminate|].
  destruct (PyStr.split sep r); discriminate.
Qed.

Lemma keys_partition (parts : list string) :
  (length (modifier_keys parts) + length (non_modifier_keys parts) = length parts)%nat.
Proof.
  unfold modifier_keys, non_modifier_keys.
  induction parts as [|p ps IH]; [reflexivity|].
  rewrite !filter_cons. destruct (is_modifier p) eqn:Hp.
  - destruct (decide (true = true)); [|congruence].
    destruct (decide (true = false)); [congruence|]. simpl. lia.
  - destruct (decide (false = true)); [congruence|].
    destruct (decide (false = false)); [|congruence]. simpl. lia.
Qed.

Lemma hotkey_parts_nonempty (s : string) : (0 < length (hotkey_parts s))%nat.
Proof.
  unfold hotkey_parts. rewrite length_map.
  pose proof (split_nonempty "+" s). destruct (PyStr.split "+" s); [congruence|simpl; lia].
Qed.

Lemma singleton_length {A} (l : list A) (k : A) :
  NoDup l -> k ∈ l -> (forall p, p ∈ l -> p = k) -> length l = 1%nat.
Proof.
  intros Hnd Hk Hall. destruct l as [|a [|b l']].
  - inversion Hk.
  - reflexivity.
  - exfalso. assert (a = k) by (apply Hall; left).
    assert (b = k) by (apply Hall; right; left). subst.
    inversion Hnd as [|? ? Hnot _]. apply Hnot. left.
Qed.

(** [is_valid_hotkey] accepts exactly the strings whose parts name one
    key that is not a modifier, any number of times, beside modifiers. *)
Lemma is_valid_hotkey_iff (s : string) :
  is_valid_hotkey s = true
  <-> s <> ""
      /\ exists k, is_modifier k = false
           /\ k ∈ valid_hotkey_parts s
           /\ forall p, p ∈ valid_hotkey_parts s -> is_modifier p = true \/ p = k.
Proof.
  unfold is_valid_hotkey. destruct s as [|c s'].
  { simpl. split; [discriminate|intros [H _]; congruence]. }
  cbn [PyStr.truthy negb]. cbv zeta.
  set (ps := valid_hotkey_parts (String c s')).
  set (L := filter (fun p => is_modifier p = false) (elements (list_to_set ps : gset string))).
  assert (NoDup L) as Hnd by (apply NoDup_filter, NoDup_elements).
  assert (forall p, p ∈ L <-> is_modifier p = false /\ p ∈ ps) as HL.
  { intros p. unfold L. rewrite list_elem_of_filter, elem_of_elements, elem_of_list_to_set.
    reflexivity. }
  rewrite Nat.eqb_eq. split.
  - intros Hlen. split; [discriminate|].
    destruct L as [|k [|b L']] eqn:HeqL; try discriminate.
    exists k. assert (k ∈ [k]) as Hk by left. apply HL in Hk as [Hk1 Hk2].
    split; [exact Hk1|]. split; [exact Hk2|].
    intros p Hp. destruct (is_modifier p) eqn:Hm; [left; reflexivity|right].
    assert (p ∈ [k]) as Hin by (apply HL; auto).
    apply list_elem_of_singleton in Hin. exact Hin.
  - intros [_ (k & Hk1 & Hk2 & Hall)].
    apply (singleton_length L k Hnd).
    + apply HL. auto.
    + intros p Hp. apply HL in Hp as [Hp1 Hp2].
      destruct (Hall p Hp2) as [Hm|Hm]; [congruence|exact Hm].
Qed.

(** The run of [set_new_hotkey], branch by branch. *)
Lemma set_new_hotkey_unfold (captured : string) (w : t) :
  set_new_hotkey captured w
  = let w1 := set_button_enabled true w in
    let parts := hotkey_parts (lowered captured) in
    if clears_hotkey captured then
      (modify (set_current_hotkey None) ;; update_listener_and_button)%py w1
    else if (1 <? length (modifier_keys parts))%nat then
      MkRun (Returns tt) (set_button_text TooManyModifiersText w1)
            [SingleShot 2000 (hotkey_text w)]
    else if (1 <? length (non_modifier_keys parts))%nat then
      use_parts (modifier_keys parts ++ last_of (non_modifier_keys parts)) w1
    else if (length (non_modifier_keys parts) =? 0)%nat
            && (0 <? length (modifier_keys parts))%nat then
      MkRun (Returns tt) (set_button_text InvalidCombinationText w1)
            [SingleShot 2000 (hotkey_text w)]
    else use_parts parts w1.
Proof.
  unfold set_new_hotkey. cbv zeta. rewrite bind_modify, bind_gets.
  destruct (clears_hotkey captured); [reflexivity|].
  destruct (1 <? length (modifier_keys _))%nat; [reflexivity|].
  destruct (1 <? length (non_modifier_keys _))%nat; [reflexivity|].
  destruct ((length (non_modifier_keys _) =? 0)%nat && _); reflexivity.
Qed.

(** Once the parts are chosen, their translation joined by [" + "] is the
    current hotkey, and a listener for it is started. *)
Lemma use_parts_run (ps : list string) (w0 : t) :
  let hk := PyStr.join " + " (map translate ps) in
  let r := use_parts ps w0 in
  result r = Returns tt
  /\ current_hotkey (final r) = Some hk
  /\ (PyStr.truthy hk = true ->
      hotkey_listener (final r) = Some {| hotkey := hk; isRunning := true |}).
Proof.
  unfold use_parts. cbv zeta.
  generalize (PyStr.join " + " (map translate ps)). intros hk.
  unfold update_listener_and_button, restart_hotkey_listener, start_hotkey_listener,
    bind, get, gets, when, modify.
  simpl.
  destruct (listener_running (hotkey_listener w0)) eqn:Hl; simpl;
    (destruct (PyStr.truthy hk) eqn:Hhk; simpl; repeat split; auto; discriminate).
Qed.

Lemma lowered_lower (captured : string) :
  clears_hotkey captured = false -> lowered captured = PyStr.lower captured.
Proof.
  unfold clears_hotkey, lowered. destruct (PyStr.truthy captured); [reflexivity|discriminate].
Qed.

End HotkeyAcceptanceFacts.

(** C2, as the code has it.  [is_valid_hotkey] accepts a string exactly
    when it is not empty and its parts name one key that is not a
    modifier, beside any number of the modifiers [ctrl], [alt], [shift],
    [win]; so it accepts every combination of one or more modifiers and
    one other key, and rejects those with no or with more than one other
    key.  A capture (other than the empty string, [esc] and [backspace])
    is treated differently by [set_new_hotkey]: with more than one
    modifier part it is rejected, and so is one made of modifiers only,
    the current hotkey and the listener staying as they were; with at most
    one modifier and exactly one other key, its parts, translated by
    [RU_TO_EN_MAP] and joined by [" + "], become the current hotkey; with
    at most one modifier and several other keys it is not rejected, the
    modifier and the last of the other keys become the current hotkey. *)
Theorem hotkey_acceptance {U : PyStr.Unicode} (captured : string) (w : MainWindow.t) :
  let parts := MainWindow.hotkey_parts (PyStr.lower captured) in
  let mods := MainWindow.modifier_keys parts in
  let keys := MainWindow.non_modifier_keys parts in
  let r := MainWindow.set_new_hotkey captured w in
  (forall s,
      is_valid_hotkey s = true
      <-> s <> ""
          /\ exists k, is_modifier k = false
                /\ k ∈ valid_hotkey_parts s
                /\ forall p, p ∈ valid_hotkey_parts s -> is_modifier p = true \/ p = k)
  /\ (MainWindow.clears_hotkey captured = false ->
      ((1 < length mods)%nat ->
       MainWindow.current_hotkey (final r) = MainWindow.current_hotkey w
       /\ MainWindow.hotkey_listener (final r) = MainWindow.hotkey_listener w
       /\ MainWindow.set_hotkey_button (final r) = TooManyModifiersText)
      /\ ((length mods <= 1)%nat -> keys = [] ->
          MainWindow.current_hotkey (final r) = MainWindow.current_hotkey w
          /\ MainWindow.hotkey_listener (final r) = MainWindow.hotkey_listener w
          /\ MainWindow.set_hotkey_button (final r) = InvalidCombinationText)
      /\ ((length mods <= 1)%nat -> forall k, keys = [k] ->
          MainWindow.current_hotkey (final r)
          = Some (PyStr.join " + " (map translate parts)))
      /\ ((length mods <= 1)%nat -> forall k, (1 < length keys)%nat -> last keys = Some k ->
          MainWindow.current_hotkey (final r)
          = Some (PyStr.join " + " (map translate (mods ++ [k]))))).
Proof.
  intros parts mods keys r. subst r.
  split; [intros s; apply is_valid_hotkey_iff|].
  intros Hkey.
  rewrite set_new_hotkey_unfold. cbv zeta. rewrite Hkey.
  rewrite (lowered_lower captured Hkey). fold parts. fold mods. fold keys.
  pose proof (keys_partition parts) as Hpart. fold mods keys in Hpart.
  pose proof (hotkey_parts_nonempty (PyStr.lower captured)) as Hpos. fold parts in Hpos.
  split; [|split; [|split]].
  - intros Hgt. apply Nat.ltb_lt in Hgt. rewrite Hgt. cbn. auto.
  - intros Hle Hnil.
    assert ((1 <? length mods)%nat = false) as -> by (apply Nat.ltb_ge; assumption).
    rewrite Hnil in *. simpl in Hpart. simpl.
    assert ((0 <? length mods)%nat = true) as -> by (apply Nat.ltb_lt; lia).
    cbn. auto.
  - intros Hle k Hk.
    assert ((1 <? length mods)%nat = false) as -> by (apply Nat.ltb_ge; assumption).
    rewrite Hk. simpl.
    destruct (use_parts_run parts (MainWindow.set_button_enabled true w)) as (_ & Hc & _).
    exact Hc.
  - intros Hle k Hk Hlast.
    assert ((1 <? length mods)%nat = false) as -> by (apply Nat.ltb_ge; assumption).
    apply Nat.ltb_lt in Hk. rewrite Hk.
    unfold MainWindow.last_of. rewrite Hlast.
    destruct (use_parts_run (mods ++ [k]) (MainWindow.set_button_enabled true w))
      as (_ & Hc & _).
    exact Hc.
Qed.

Lemma hotkey_acceptance_witness :
  MainWindow.clears_hotkey "Ctrl+K" = false
  /\ MainWindow.current_hotkey (final (MainWindow.set_new_hotkey "Ctrl+K" MainWindow.init))
     = Some "ctrl + k".
Proof.
  split; [reflexivity|].
  assert (length (MainWindow.modifier_keys (MainWindow.hotkey_parts (PyStr.lower "Ctrl+K")))
          <= 1)%nat as Hm by (vm_compute; lia).
  exact (proj1 (proj2 (proj2 (proj2 (hotkey_acceptance "Ctrl+K" MainWindow.init) eq_refl)))
           Hm "k" eq_refl).
Defined.

(** ** The listener invariant is kept by every slot of the window *)

Section InvariantFacts.
Context {U : PyStr.Unicode}.
Import MainWindow.

Lemma update_listener_and_button_keeps_invariant (w : t) :
  retired_stopped w -> retired_stopped (final (update_listener_and_button w)).
Proof.
  intros Hinv. unfold update_listener_and_button, restart_hotkey_listener.
  rewrite (bind_returns _ _ _ tt (start_hotkey_listener_returns w)).
  cbn [result final trace]. rewrite bind_gets. cbn [result final trace modify].
  exact (start_hotkey_listener_keeps_invariant w Hinv).
Qed.

Lemma use_parts_keeps_invariant (ps : list string) (w : t) :
  retired_stopped w -> retired_stopped (final (use_parts ps w)).
Proof.
  intros Hinv. unfold use_parts. cbv zeta. rewrite bind_modify.
  apply update_listener_and_button_keeps_invariant. exact Hinv.
Qed.

Lemma set_new_hotkey_keeps_invariant (captured : string) (w : t) :
  retired_stopped w -> retired_stopped (final (set_new_hotkey captured w)).
Proof.
  intros Hinv. rewrite set_new_hotkey_unfold. cbv zeta.
  destruct (clears_hotkey captured).
  { rewrite bind_modify. apply update_listener_and_button_keeps_invariant. exact Hinv. }
  destruct (1 <? length (modifier_keys _))%nat; [exact Hinv|].
  destruct (1 <? length (non_modifier_keys _))%nat.
  { apply use_parts_keeps_invariant. exact Hinv. }
  destruct ((length (non_modifier_keys _) =? 0)%nat && _); [exact Hinv|].
  apply use_parts_keeps_invariant. exact Hinv.
Qed.

Lemma open_process_dialog_keeps_invariant (d : ProcessDialog.t) (w : t) :
  retired_stopped w -> retired_stopped (final (open_process_dialog d w)).
Proof.
  intros Hinv. unfold open_process_dialog.
  destruct (ProcessDialog.accepted d).
  - destruct (ProcessDialog.selected_process d) as [p|]; [|exact Hinv].
    unfold when. destruct (PyStr.truthy p); [|exact Hinv].
    rewrite !bind_modify, bind_get.
    destruct (negb (listener_running _)); [|exact Hinv].
    unfold restart_hotkey_listener.
    apply (start_hotkey_listener_keeps_invariant
             (set_process_label ("Target: " +:+ p) (set_selected_process (Some p) w))).
    exact Hinv.
  - rewrite bind_get. unfold when.
    destruct (negb (PyStr.truthy_opt (selected_process w))); exact Hinv.
Qed.

Lemma kill_connections_keeps_invariant (base_path : string) (env : Env) (w : t) :
  retired (final (kill_connections base_path env w)) = retired w.
Proof.
  destruct (launch_guard_cases w) as [Hg|(target & Hp & Hs & Ht)].
  - rewrite (kill_connections_guarded base_path env w Hg). reflexivity.
  - destruct (path_exists env (CPORTS_PATH base_path)) eqn:He.
    + destruct (kill_connections_launch base_path env w target Hp Hs Ht He) as [-> _].
      reflexivity.
    + assert (is_paused w || negb (PyStr.truthy_opt (selected_process w)) = false) as Hg.
      { rewrite Hp, Hs. simpl. rewrite Ht. reflexivity. }
      destruct (kill_connections_no_tool base_path env w Hg He) as (_ & -> & _).
      reflexivity.
Qed.

End InvariantFacts.

(** * Further properties of the code *)

(** ** The window over any sequence of events *)

Section WindowHistoryFacts.
Context {U : PyStr.Unicode}.
Import MainWindow.

Lemma start_hotkey_listener_listens (w : t) :
  listens_to_current (final (start_hotkey_listener w)).
Proof.
  unfold listens_to_current, start_hotkey_listener.
  rewrite bind_get. unfold when.
  destruct (listener_running (hotkey_listener w)) eqn:Hl.
  - rewrite bind_modify, bind_get. cbn [current_hotkey set_listeners].
    destruct (current_hotkey w) as [hk|] eqn:Hk.
    + destruct (PyStr.truthy hk); cbn.
      * intros l [= <-] _. exact Hk.
      * intros l Hsome Hrun. rewrite Hk.
        destruct (hotkey_listener w) as [l0|]; [|discriminate].
        injection Hsome as <-. discriminate Hrun.
    + cbn. intros l Hsome Hrun.
      destruct (hotkey_listener w) as [l0|]; [|discriminate].
      injection Hsome as <-. discriminate Hrun.
  - rewrite bind_ret, bind_get.
    destruct (current_hotkey w) as [hk|] eqn:Hk.
    + destruct (PyStr.truthy hk); cbn.
      * intros l [= <-] _. exact Hk.
      * intros l Hsome Hrun. rewrite Hsome in Hl. simpl in Hl. congruence.
    + cbn. intros l Hsome Hrun. rewrite Hsome in Hl. simpl in Hl. congruence.
Qed.

Lemma update_listener_and_button_listens (w : t) :
  listens_to_current (final (update_listener_and_button w)).
Proof.
  unfold update_listener_and_button, restart_hotkey_listener.
  rewrite (bind_returns _ _ _ tt (start_hotkey_listener_returns w)).
  cbn [result final trace]. rewrite bind_gets. cbn [result final trace modify].
  exact (start_hotkey_listener_listens w).
Qed.

Lemma set_new_hotkey_listens (captured : string) (w : t) :
  listens_to_current w -> listens_to_current (final (set_new_hotkey captured w)).
Proof.
  intros Hinv. rewrite set_new_hotkey_unfold. cbv zeta.
  destruct (clears_hotkey captured).
  { rewrite bind_modify. apply update_listener_and_button_listens. }
  destruct (1 <? length (modifier_keys _))%nat; [exact Hinv|].
  destruct (1 <? length (non_modifier_keys _))%nat.
  { unfold use_parts. cbv zeta. rewrite bind_modify.
    apply update_listener_and_button_listens. }
  destruct ((length (non_modifier_keys _) =? 0)%nat && _); [exact Hinv|].
  unfold use_parts. cbv zeta. rewrite bind_modify.
  apply update_listener_and_button_listens.
Qed.

Lemma open_process_dialog_listens (d : ProcessDialog.t) (w : t) :
  listens_to_current w -> listens_to_current (final (open_process_dialog d w)).
Proof.
  intros Hinv. unfold open_process_dialog.
  destruct (ProcessDialog.accepted d).
  - destruct (ProcessDialog.selected_process d) as [p|]; [|exact Hinv].
    unfold when. destruct (PyStr.truthy p); [|exact Hinv].
    rewrite !bind_modify, bind_get.
    destruct (negb (listener_running _)); [|exact Hinv].
    unfold restart_hotkey_listener. apply start_hotkey_listener_listens.
  - rewrite bind_get. unfold when.
    destruct (negb (PyStr.truthy_opt (selected_process w))); exact Hinv.
Qed.

Lemma kill_connections_final (base_path : string) (env : Env) (w : t) :
  final (kill_connections base_path env w) = w.
Proof.
  destruct (launch_guard_cases w) as [Hg|(target & Hp & Hs & Ht)].
  - rewrite (kill_connections_guarded base_path env w Hg). reflexivity.
  - destruct (path_exists env (CPORTS_PATH base_path)) eqn:He.
    + destruct (kill_connections_launch base_path env w target Hp Hs Ht He) as [-> _].
      reflexivity.
    + assert (is_paused w || negb (PyStr.truthy_opt (selected_process w)) = false) as Hg.
      { rewrite Hp, Hs. simpl. rewrite Ht. reflexivity. }
      destruct (kill_connections_no_tool base_path env w Hg He) as (_ & -> & _).
      reflexivity.
Qed.

Lemma listener_finished_keeps (w : t) :
  retired_stopped w ->
  retired_stopped (final (listener_finished w))
  /\ listens_to_current (final (listener_finished w)).
Proof.
  intros Hinv. unfold listener_finished, modify. cbn. split; [exact Hinv|].
  intros l Hsome Hrun. cbn in Hsome.
  destruct (hotkey_listener w) as [l0|]; [|discriminate].
  injection Hsome as <-. discriminate Hrun.
Qed.

Lemma perform_keeps (base_path : string) (env : Env) (a : Action) (w : t) :
  retired_stopped w /\ listens_to_current w ->
  retired_stopped (final (perform base_path env a w))
  /\ listens_to_current (final (perform base_path env a w)).
Proof.
  intros [H1 H2]. destruct a; cbn [perform].
  - unfold start_hotkey_capture. rewrite !bind_modify. cbn. split; assumption.
  - split; [apply set_new_hotkey_keeps_invariant|apply set_new_hotkey_listens]; assumption.
  - split; [apply open_process_dialog_keeps_invariant|apply open_process_dialog_listens];
      assumption.
  - unfold toggle_pause. rewrite bind_gets. cbn. split; assumption.
  - rewrite kill_connections_final. split; assumption.
  - apply listener_finished_keeps. exact H1.
Qed.

Lemma after_keeps (base_path : string) (env : Env) (acts : list Action) :
  retired_stopped (after base_path env acts)
  /\ listens_to_current (after base_path env acts).
Proof.
  unfold after.
  assert (retired_stopped init /\ listens_to_current init) as Hinit.
  { split; [constructor|]. intros l Hl. discriminate Hl. }
  revert Hinit. generalize init. induction acts as [|a acts IH]; intros w Hw; [exact Hw|].
  cbn [fold_left]. apply IH. apply perform_keeps. exact Hw.
Qed.

Lemma registered_hotkeys_current (w : t) :
  retired_stopped w ->
  registered_hotkeys w
  = match hotkey_listener w with
    | Some l => if isRunning l then [hotkey l] else []
    | None => []
    end.
Proof.
  unfold retired_stopped, registered_hotkeys, listeners. intros Hinv.
  assert (filter (fun l => isRunning l = true) (retired w) = []) as Hnil.
  { induction Hinv as [|l ls Hl _ IH]; [reflexivity|].
    rewrite filter_cons. destruct (decide (isRunning l = true)); [congruence|exact IH]. }
  destruct (hotkey_listener w) as [l|]; [|rewrite Hnil; reflexivity].
  rewrite filter_cons. destruct (isRunning l) eqn:Hr.
  - destruct (decide (true = true)); [|congruence]. rewrite Hnil. reflexivity.
  - destruct (decide (false = true)); [congruence|]. rewrite Hnil. reflexivity.
Qed.

End WindowHistoryFacts.

(** X1. Whatever sequence of events the window goes through after its
    construction (captures started and reported, process dialogs closed,
    pause toggled, hotkey presses, a listener thread ending by itself), at
    most one hotkey is registered at any time, and a registered hotkey is
    the current hotkey of the window. *)
Theorem at_most_one_hotkey_registered {U : PyStr.Unicode}
    (base_path : string) (env : MainWindow.Env) (acts : list MainWindow.Action) :
  let w := MainWindow.after base_path env acts in
  (length (MainWindow.registered_hotkeys w) <= 1)%nat
  /\ forall hk, hk ∈ MainWindow.registered_hotkeys w ->
                MainWindow.current_hotkey w = Some hk.
Proof.
  intros w. destruct (after_keeps base_path env acts) as [H1 H2]. fold w in H1, H2.
  rewrite (registered_hotkeys_current w H1).
  destruct (MainWindow.hotkey_listener w) as [l|] eqn:Hl.
  - destruct (MainWindow.isRunning l) eqn:Hr.
    + split; [simpl; lia|]. intros hk Hin. apply list_elem_of_singleton in Hin. subst hk.
      exact (H2 l Hl Hr).
    + split; [simpl; lia|]. intros hk Hin. inversion Hin.
  - split; [simpl; lia|]. intros hk Hin. inversion Hin.
Qed.

Example history_example :
  let env := {| MainWindow.path_exists := fun _ => true;
                MainWindow.launch := fun _ => Returns 0 |} in
  let w := MainWindow.after "C:\app\assets" env
             [MainWindow.StartCapture; MainWindow.Captured "ctrl+k";
              MainWindow.StartCapture; MainWindow.Captured "Alt+Я";
              MainWindow.TogglePause; MainWindow.HotkeyPressed] in
  MainWindow.registered_hotkeys w = ["alt + z"]
  /\ MainWindow.hotkey <$> MainWindow.retired w = ["ctrl + k"]
  /\ MainWindow.set_hotkey_button w = HotkeyText "alt + z".
Proof. vm_compute. repeat split; reflexivity. Qed.

(** ** What a capture leaves behind *)

Section CaptureFacts.
Context {U : PyStr.Unicode}.
Import MainWindow.

Lemma start_hotkey_listener_quiet (w : t) :
  let r := start_hotkey_listener w in
  trace r = []
  /\ set_hotkey_button_enabled (final r) = set_hotkey_button_enabled w
  /\ set_hotkey_button (final r) = set_hotkey_button w.
Proof.
  unfold start_hotkey_listener. rewrite bind_get. unfold when.
  destruct (listener_running (hotkey_listener w)).
  - rewrite bind_modify, bind_get. cbn [current_hotkey set_listeners].
    destruct (current_hotkey w) as [hk|]; [destruct (PyStr.truthy hk)|]; cbn; auto.
  - rewrite bind_ret, bind_get.
    destruct (current_hotkey w) as [hk|]; [destruct (PyStr.truthy hk)|]; cbn; auto.
Qed.

Lemma update_listener_and_button_run (w : t) :
  let r := update_listener_and_button w in
  result r = Returns tt
  /\ trace r = []
  /\ current_hotkey (final r) = current_hotkey w
  /\ set_hotkey_button (final r) = hotkey_text (final r)
  /\ set_hotkey_button_enabled (final r) = set_hotkey_button_enabled w.
Proof.
  unfold update_listener_and_button, restart_hotkey_listener.
  rewrite (bind_returns _ _ _ tt (start_hotkey_listener_returns w)).
  cbn [result final trace]. rewrite bind_gets. cbn [result final trace modify].
  destruct (start_hotkey_listener_quiet w) as (Ht & He & _).
  destruct (start_hotkey_listener_frame w) as (_ & _ & Hc & _).
  rewrite Ht. cbn. repeat split; auto.
Qed.

Lemma use_parts_full (ps : list string) (w : t) :
  let r := use_parts ps w in
  result r = Returns tt
  /\ trace r = []
  /\ current_hotkey (final r) = Some (PyStr.join " + " (map translate ps))
  /\ set_hotkey_button (final r) = hotkey_text (final r)
  /\ set_hotkey_button_enabled (final r) = set_hotkey_button_enabled w.
Proof.
  unfold use_parts. cbv zeta. rewrite bind_modify.
  destruct (update_listener_and_button_run
              (set_current_hotkey (Some (PyStr.join " + " (map translate ps))) w))
    as (Hr & Ht & Hc & Hb & He).
  repeat split; assumption.
Qed.

Lemma modifier_keys_all (ps : list string) :
  modifier_keys (modifier_keys ps) = modifier_keys ps
  /\ non_modifier_keys (modifier_keys ps) = [].
Proof.
  unfold modifier_keys, non_modifier_keys.
  induction ps as [|p ps [IH1 IH2]]; [split; reflexivity|].
  rewrite filter_cons. destruct (decide (is_modifier p = true)) as [Hp|Hp]; [|auto].
  rewrite !filter_cons.
  destruct (decide (is_modifier p = true)); [|congruence].
  destruct (decide (is_modifier p = false)); [congruence|].
  rewrite IH1, IH2. auto.
Qed.

Lemma non_modifier_member (ps : list string) (k : string) :
  k ∈ non_modifier_keys ps -> is_modifier k = false /\ k ∈ ps.
Proof. unfold non_modifier_keys. rewrite list_elem_of_filter. auto. Qed.

Lemma modifier_member (ps : list string) (k : string) :
  k ∈ modifier_keys ps -> is_modifier k = true /\ k ∈ ps.
Proof. unfold modifier_keys. rewrite list_elem_of_filter. auto. Qed.

Lemma chosen_parts_shape (ps : list string) (k : string) :
  last (non_modifier_keys ps) = Some k ->
  modifier_keys (modifier_keys ps ++ [k]) = modifier_keys ps
  /\ non_modifier_keys (modifier_keys ps ++ [k]) = [k]
  /\ forall p, p ∈ modifier_keys ps ++ [k] -> p ∈ ps.
Proof.
  intros Hlast. apply last_Some_elem_of in Hlast.
  apply non_modifier_member in Hlast as [Hk Hin].
  destruct (modifier_keys_all ps) as [H1 H2].
  split; [|split].
  - unfold modifier_keys at 1. rewrite filter_app. fold (modifier_keys (modifier_keys ps)).
    rewrite H1, filter_cons.
    destruct (decide (is_modifier k = true)); [congruence|]. apply app_nil_r.
  - unfold non_modifier_keys at 1. rewrite filter_app.
    fold (non_modifier_keys (modifier_keys ps)). rewrite H2, filter_cons.
    destruct (decide (is_modifier k = false)); [reflexivity|congruence].
  - intros p Hp. apply elem_of_app in Hp as [Hp|Hp].
    + apply modifier_member in Hp. tauto.
    + apply list_elem_of_singleton in Hp. subst p. exact Hin.
Qed.

End CaptureFacts.

(** X2. A capture that is not the empty string, [esc] or [backspace] ends
    in one of two ways, and [set_new_hotkey] returns normally in both.
    Either it is turned down: the current hotkey, the listener and the
    retired listeners are untouched, the button shows one of the two error
    texts, and a timer is set to bring back the text of the unchanged
    hotkey after 2000 ms.  Or a hotkey is set: it is made of parts of the
    capture, of which exactly one is not a modifier and at most one is a
    modifier, translated and joined by [" + "]; the button then shows the
    hotkey now current and no timer is set. *)
Theorem captured_hotkey_shape {U : PyStr.Unicode} (captured : string) (w : MainWindow.t)
    (Hkey : MainWindow.clears_hotkey captured = false) :
  let r := MainWindow.set_new_hotkey captured w in
  result r = Returns tt
  /\ ((MainWindow.current_hotkey (final r) = MainWindow.current_hotkey w
       /\ MainWindow.hotkey_listener (final r) = MainWindow.hotkey_listener w
       /\ MainWindow.retired (final r) = MainWindow.retired w
       /\ (MainWindow.set_hotkey_button (final r) = TooManyModifiersText
           \/ MainWindow.set_hotkey_button (final r) = InvalidCombinationText)
       /\ trace r = [SingleShot 2000 (MainWindow.hotkey_text w)])
      \/ (exists ps,
            MainWindow.current_hotkey (final r)
            = Some (PyStr.join " + " (map translate ps))
            /\ (forall p, p ∈ ps -> p ∈ MainWindow.hotkey_parts (PyStr.lower captured))
            /\ (length (MainWindow.modifier_keys ps) <= 1)%nat
            /\ length (MainWindow.non_modifier_keys ps) = 1%nat
            /\ MainWindow.set_hotkey_button (final r) = MainWindow.hotkey_text (final r)
            /\ trace r = [])).
Proof.
  intros r. subst r. rewrite set_new_hotkey_unfold. cbv zeta. rewrite Hkey.
  rewrite (lowered_lower captured Hkey).
  set (parts := MainWindow.hotkey_parts (PyStr.lower captured)).
  pose proof (keys_partition parts) as Hpart.
  pose proof (hotkey_parts_nonempty (PyStr.lower captured)) as Hpos. fold parts in Hpos.
  destruct (1 <? length (MainWindow.modifier_keys parts))%nat eqn:Hm.
  { split; [reflexivity|]. left. cbn. auto 10. }
  apply Nat.ltb_ge in Hm.
  destruct (1 <? length (MainWindow.non_modifier_keys parts))%nat eqn:Hk.
  { apply Nat.ltb_lt in Hk.
    destruct (last (MainWindow.non_modifier_keys parts)) as [k|] eqn:Hlast.
    2: { apply last_None in Hlast. rewrite Hlast in Hk. simpl in Hk. lia. }
    unfold MainWindow.last_of. rewrite Hlast.
    destruct (use_parts_full (MainWindow.modifier_keys parts ++ [k])
                (MainWindow.set_button_enabled true w)) as (Hr & Ht & Hc & Hb & _).
    destruct (chosen_parts_shape parts k Hlast) as (S1 & S2 & S3).
    split; [exact Hr|]. right. exists (MainWindow.modifier_keys parts ++ [k]).
    rewrite S1, S2. repeat split; auto. }
  apply Nat.ltb_ge in Hk.
  destruct ((length (MainWindow.non_modifier_keys parts) =? 0)%nat
            && (0 <? length (MainWindow.modifier_keys parts))%nat) eqn:Hz.
  { split; [reflexivity|]. left. cbn. auto 10. }
  destruct (use_parts_full parts (MainWindow.set_button_enabled true w))
    as (Hr & Ht & Hc & Hb & _).
  split; [exact Hr|]. right. exists parts.
  repeat split; auto.
  apply andb_false_iff in Hz as [Hz|Hz].
  - apply Nat.eqb_neq in Hz. lia.
  - apply Nat.ltb_ge in Hz. lia.
Qed.

Lemma captured_hotkey_shape_witness :
  MainWindow.clears_hotkey "ctrl+a+d" = false
  /\ result (MainWindow.set_new_hotkey "ctrl+a+d" MainWindow.init) = Returns tt.
Proof.
  split; [reflexivity|].
  exact (proj1 (captured_hotkey_shape "ctrl+a+d" MainWindow.init eq_refl)).
Defined.

(** X3. Asking for a hotkey disables the button and makes it say
    [Press any key...], and changes neither the hotkey nor the listener.
    Whatever the capture then reports, [set_new_hotkey] returns normally
    with the button enabled again, and the button no longer says
    [Press any key...]: it shows an error text or the current hotkey. *)
Theorem capture_reenables_button {U : PyStr.Unicode} (captured : string) (w : MainWindow.t) :
  let w1 := final (MainWindow.start_hotkey_capture w) in
  let r := MainWindow.set_new_hotkey captured w1 in
  MainWindow.set_hotkey_button_enabled w1 = false
  /\ MainWindow.set_hotkey_button w1 = PressAnyKeyText
  /\ MainWindow.current_hotkey w1 = MainWindow.current_hotkey w
  /\ MainWindow.hotkey_listener w1 = MainWindow.hotkey_listener w
  /\ result r = Returns tt
  /\ MainWindow.set_hotkey_button_enabled (final r) = true
  /\ MainWindow.set_hotkey_button (final r) <> PressAnyKeyText.
Proof.
  intros w1 r.
  assert (w1 = MainWindow.set_button_enabled false
                 (MainWindow.set_button_text PressAnyKeyText w)) as Hw1.
  { subst w1. unfold MainWindow.start_hotkey_capture. rewrite !bind_modify. reflexivity. }
  split; [rewrite Hw1; reflexivity|].
  split; [rewrite Hw1; reflexivity|].
  split; [rewrite Hw1; reflexivity|].
  split; [rewrite Hw1; reflexivity|].
  assert (forall x, MainWindow.hotkey_text x <> PressAnyKeyText) as Htxt.
  { intros x. unfold MainWindow.hotkey_text.
    destruct (MainWindow.current_hotkey x) as [hk|]; [destruct (PyStr.truthy hk)|];
      discriminate. }
  subst r. rewrite set_new_hotkey_unfold. cbv zeta.
  destruct (MainWindow.clears_hotkey captured).
  { rewrite bind_modify.
    match goal with |- context [MainWindow.update_listener_and_button ?x] =>
      destruct (update_listener_and_button_run x) as (Hr & _ & _ & Hb & He) end.
    rewrite Hr, He, Hb. repeat split; auto. }
  destruct (1 <? length (MainWindow.modifier_keys _))%nat.
  { cbn. repeat split; auto; discriminate. }
  destruct (1 <? length (MainWindow.non_modifier_keys _))%nat.
  { match goal with |- context [MainWindow.use_parts ?ps ?x] =>
      destruct (use_parts_full ps x) as (Hr & _ & _ & Hb & He) end.
    rewrite Hr, He, Hb. repeat split; auto. }
  destruct ((length (MainWindow.non_modifier_keys _) =? 0)%nat && _).
  { cbn. repeat split; auto; discriminate. }
  match goal with |- context [MainWindow.use_parts ?ps ?x] =>
    destruct (use_parts_full ps x) as (Hr & _ & _ & Hb & He) end.
  rewrite Hr, He, Hb. repeat split; auto.
Qed.

(** ** Pausing, and closing the process dialog *)

Section PauseAndDialogFacts.
Context {U : PyStr.Unicode}.
Import MainWindow.

(** A press looks at the pause flag and at the selected process only. *)
Lemma kill_connections_reads (base_path : string) (env : Env) (w1 w2 : t) :
  is_paused w1 = is_paused w2 ->
  selected_process w1 = selected_process w2 ->
  result (kill_connections base_path env w1) = result (kill_connections base_path env w2)
  /\ trace (kill_connections base_path env w1) = trace (kill_connections base_path env w2).
Proof.
  intros Hp Hs. unfold kill_connections. rewrite !bind_get, Hp, Hs.
  destruct (is_paused w2 || negb (PyStr.truthy_opt (selected_process w2)));
    [split; reflexivity|].
  destruct (negb (path_exists env (CPORTS_PATH base_path))); [split; reflexivity|].
  destruct (selected_process w2) as [target|]; [|split; reflexivity].
  unfold try_except, subprocess_run_check, bind, answer, emit, ret, raise.
  destruct (launch env _) as [rc|e].
  - destruct (rc =? 0); [split; reflexivity|].
    destruct (Exc.caught_by _ _); split; reflexivity.
  - destruct (Exc.caught_by _ _); split; reflexivity.
Qed.

Lemma toggle_pause_run (w : t) :
  toggle_pause w
  = MkRun (Returns tt)
          (set_paused (negb (is_paused w))
                      (if negb (is_paused w) then "Resume" else "Pause") w)
          [].
Proof. unfold toggle_pause. rewrite bind_gets. reflexivity. Qed.

Lemma open_process_dialog_arms (d : ProcessDialog.t) (w : t) (p hk : string) :
  retired_stopped w ->
  listens_to_current w ->
  ProcessDialog.accepted d = true ->
  ProcessDialog.selected_process d = Some p ->
  PyStr.truthy p = true ->
  current_hotkey w = Some hk ->
  PyStr.truthy hk = true ->
  registered_hotkeys (final (open_process_dialog d w)) = [hk].
Proof.
  intros H1 H2 Ha Hs Hp Hk Hhk.
  pose proof (open_process_dialog_keeps_invariant d w H1) as H1'.
  rewrite (registered_hotkeys_current _ H1').
  unfold open_process_dialog. rewrite Ha, Hs. unfold when. rewrite Hp.
  rewrite !bind_modify, bind_get. cbn [hotkey_listener set_process_label set_selected_process].
  destruct (hotkey_listener w) as [l|] eqn:Hl.
  - destruct (isRunning l) eqn:Hr; cbn [listener_running negb].
    + rewrite Hr.
      cbn [negb ret final hotkey_listener set_process_label set_selected_process].
      rewrite Hl, Hr. pose proof (H2 l Hl Hr) as Hcur. congruence.
    + rewrite Hr. cbn [negb]. unfold restart_hotkey_listener, start_hotkey_listener.
      rewrite bind_get. cbn [hotkey_listener set_process_label set_selected_process].
      rewrite Hl. cbn [listener_running]. rewrite Hr. unfold when.
      rewrite bind_ret, bind_get.
      cbn [current_hotkey set_process_label set_selected_process]. rewrite Hk, Hhk.
      reflexivity.
  - cbn [listener_running negb].
    unfold restart_hotkey_listener, start_hotkey_listener.
    rewrite bind_get. cbn [hotkey_listener set_process_label set_selected_process].
    rewrite Hl. cbn [listener_running]. unfold when.
    rewrite bind_ret, bind_get.
    cbn [current_hotkey set_process_label set_selected_process]. rewrite Hk, Hhk.
    reflexivity.
Qed.

End PauseAndDialogFacts.

(** X4. Pausing flips the pause flag, names the tray action after what it
    will do next ([Resume] when paused, [Pause] otherwise) and touches
    nothing a press looks at besides the flag.  While the window is
    paused a press does nothing at all; after a second toggle the window
    is unpaused again and a press does exactly what it would have done
    before the first toggle. *)
Theorem pause_then_resume (base_path : string) (env : MainWindow.Env) (w : MainWindow.t)
    (Hrun : MainWindow.is_paused w = false) :
  let paused := final (MainWindow.toggle_pause w) in
  let resumed := final (MainWindow.toggle_pause paused) in
  MainWindow.is_paused paused = true
  /\ MainWindow.toggle_action paused = "Resume"
  /\ MainWindow.kill_connections base_path env paused = MkRun (Returns tt) paused []
  /\ MainWindow.is_paused resumed = false
  /\ MainWindow.toggle_action resumed = "Pause"
  /\ MainWindow.selected_process resumed = MainWindow.selected_process w
  /\ MainWindow.registered_hotkeys resumed = MainWindow.registered_hotkeys w
  /\ result (MainWindow.kill_connections base_path env resumed)
     = result (MainWindow.kill_connections base_path env w)
  /\ trace (MainWindow.kill_connections base_path env resumed)
     = trace (MainWindow.kill_connections base_path env w).
Proof.
  intros paused resumed. subst resumed paused.
  rewrite !toggle_pause_run. cbn [final MainWindow.is_paused MainWindow.set_paused].
  rewrite Hrun. cbn [negb].
  split; [reflexivity|]. split; [reflexivity|].
  split; [apply kill_connections_guarded; reflexivity|].
  split; [reflexivity|]. split; [reflexivity|]. split; [reflexivity|].
  split; [reflexivity|].
  apply kill_connections_reads; [cbn; congruence|reflexivity].
Qed.

Lemma pause_then_resume_witness :
  let env := {| MainWindow.path_exists := fun _ => true;
                MainWindow.launch := fun _ => Returns 0 |} in
  let w := MainWindow.set_selected_process (Some "chrome.exe") MainWindow.init in
  MainWindow.is_paused w = false
  /\ MainWindow.kill_connections "C:\app\assets" env (final (MainWindow.toggle_pause w))
     = MkRun (Returns tt) (final (MainWindow.toggle_pause w)) [].
Proof.
  intros env w. split; [reflexivity|].
  exact (proj1 (proj2 (proj2 (pause_then_resume "C:\app\assets" env w eq_refl)))).
Defined.

(** X5. Closing the process dialog without a selection never changes the
    target.  After Cancel the selected process, the hotkey and the
    listener are what they were, and the label is reset to
    [No process selected] only when no process is selected.  After OK
    with no current row in a dialog that has selected nothing, the window
    is left exactly as it was. *)
Theorem dialog_without_selection_keeps_target (d : ProcessDialog.t) (w : MainWindow.t) :
  let r := MainWindow.open_process_dialog (ProcessDialog.reject d) w in
  result r = Returns tt
  /\ trace r = []
  /\ MainWindow.selected_process (final r) = MainWindow.selected_process w
  /\ MainWindow.current_hotkey (final r) = MainWindow.current_hotkey w
  /\ MainWindow.hotkey_listener (final r) = MainWindow.hotkey_listener w
  /\ MainWindow.retired (final r) = MainWindow.retired w
  /\ MainWindow.process_label (final r)
     = (if PyStr.truthy_opt (MainWindow.selected_process w)
        then MainWindow.process_label w else "No process selected")
  /\ (ProcessDialog.currentItem d = None ->
      ProcessDialog.selected_process d = None ->
      MainWindow.open_process_dialog (ProcessDialog.accept d) w = MkRun (Returns tt) w []).
Proof.
  intros r. subst r. unfold MainWindow.open_process_dialog.
  cbn [ProcessDialog.reject ProcessDialog.accepted ProcessDialog.accept
       ProcessDialog.selected_process].
  rewrite bind_get. unfold when.
  destruct (PyStr.truthy_opt (MainWindow.selected_process w)); cbn [negb].
  - repeat split. intros Hc Hs. rewrite Hc, Hs. reflexivity.
  - repeat split. intros Hc Hs. rewrite Hc, Hs. reflexivity.
Qed.

(** X6. In any state the window can reach, accepting the dialog with a
    process selected while a hotkey is set makes that process the target,
    shows it on the label, keeps the current hotkey, and leaves the window
    holding a running listener built for the current hotkey, every other
    listener object being stopped: the listener already running is kept,
    and one is started if none was running. *)
Theorem selecting_process_arms_hotkey {U : PyStr.Unicode}
    (base_path : string) (env : MainWindow.Env) (acts : list MainWindow.Action)
    (d : ProcessDialog.t) (p hk : string)
    (Hacc : ProcessDialog.accepted d = true)
    (Hsel : ProcessDialog.selected_process d = Some p)
    (Hp : PyStr.truthy p = true)
    (Hcur : MainWindow.current_hotkey (MainWindow.after base_path env acts) = Some hk)
    (Hhk : PyStr.truthy hk = true) :
  let w := MainWindow.after base_path env acts in
  let w' := final (MainWindow.open_process_dialog d w) in
  MainWindow.selected_process w' = Some p
  /\ MainWindow.process_label w' = "Target: " +:+ p
  /\ MainWindow.current_hotkey w' = Some hk
  /\ (exists l, MainWindow.hotkey_listener w' = Some l
                /\ MainWindow.hotkey l = hk
                /\ MainWindow.isRunning l = true)
  /\ MainWindow.retired_stopped w'
  /\ (MainWindow.listener_running (MainWindow.hotkey_listener w) = true ->
      MainWindow.hotkey_listener w' = MainWindow.hotkey_listener w
      /\ MainWindow.retired w' = MainWindow.retired w).
Proof.
  intros w w'. subst w' w.
  destruct (after_keeps base_path env acts) as [H1 H2].
  destruct (open_process_dialog_selects d (MainWindow.after base_path env acts) p
              Hacc Hsel Hp) as (Hs & _ & Hl).
  split; [exact Hs|]. split; [exact Hl|].
  assert (MainWindow.current_hotkey
            (final (MainWindow.open_process_dialog d (MainWindow.after base_path env acts)))
          = Some hk) as Hcur'.
  { unfold MainWindow.open_process_dialog. rewrite Hacc, Hsel. unfold when. rewrite Hp.
    rewrite !bind_modify, bind_get.
    destruct (negb (MainWindow.listener_running _)).
    + unfold MainWindow.restart_hotkey_listener.
      match goal with |- context [MainWindow.start_hotkey_listener ?x] =>
        destruct (start_hotkey_listener_frame x) as (_ & _ & Hc & _) end.
      rewrite Hc. exact Hcur.
    + exact Hcur. }
  split; [exact Hcur'|].
  pose proof (open_process_dialog_keeps_invariant d _ H1) as H1'.
  split; [|split; [exact H1'|]].
  - pose proof (open_process_dialog_arms d _ p hk H1 H2 Hacc Hsel Hp Hcur Hhk) as Hreg.
    rewrite (registered_hotkeys_current _ H1') in Hreg.
    destruct (MainWindow.hotkey_listener
                (final (MainWindow.open_process_dialog d
                          (MainWindow.after base_path env acts)))) as [l|];
      [|discriminate Hreg].
    destruct (MainWindow.isRunning l) eqn:Hr; [|discriminate Hreg].
    injection Hreg as Hhot. exists l. auto.
  - intros Hrun. unfold MainWindow.open_process_dialog. rewrite Hacc, Hsel.
    unfold when. rewrite Hp. rewrite !bind_modify, bind_get.
    cbn [MainWindow.hotkey_listener MainWindow.set_process_label
         MainWindow.set_selected_process].
    rewrite Hrun. cbn. auto.
Qed.

Lemma selecting_process_arms_hotkey_witness :
  let env := {| MainWindow.path_exists := fun _ => true;
                MainWindow.launch := fun _ => Returns 0 |} in
  let acts := [MainWindow.Captured "ctrl+k"] in
  let d := ProcessDialog.accept
             {| ProcessDialog.process_list_widget :=
                  [ {| ProcessDialog.text := "chrome.exe";
                       ProcessDialog.user_pid := Some 4242 |} ];
                ProcessDialog.current_row := Some 0%nat;
                ProcessDialog.selected_process := None;
                ProcessDialog.ok_enabled := true;
                ProcessDialog.video_running := true;
                ProcessDialog.accepted := false |} in
  MainWindow.current_hotkey (MainWindow.after "C:\app\assets" env acts) = Some "ctrl + k"
  /\ MainWindow.selected_process
       (final (MainWindow.open_process_dialog d (MainWindow.after "C:\app\assets" env acts)))
     = Some "chrome.exe".
Proof.
  intros env acts d. split; [reflexivity|].
  exact (proj1 (selecting_process_arms_hotkey
                  "C:\app\assets" env acts d "chrome.exe" "ctrl + k"
                  eq_refl eq_refl eq_refl eq_refl eq_refl)).
Defined.

(** ** Which processes the list shows *)

Section ProcessLoaderCoverage.
Context {U : PyStr.Unicode}.
Import ProcessLoaderThread.
Variable env : Env.

Lemma bind_returns_inv {S A B} (m : M S A) (k : A -> M S B) (s : S) (b : B) :
  result (bind m k s) = Returns b ->
  exists a, result (m s) = Returns a
            /\ result (k a (final (m s))) = Returns b
            /\ final (bind m k s) = final (k a (final (m s))).
Proof.
  unfold bind. destruct (m s) as [[a|e] s1 t1]; [|discriminate].
  destruct (k a s1) as [r2 s2 t2] eqn:Hk. cbn. intros ->.
  exists a. rewrite Hk. auto.
Qed.

Lemma eligible_name (pid : Z) (n n' : string) :
  eligible env pid n -> name (observe env pid) = Returns n' -> n = n'.
Proof. intros (_ & Hn & _) Hn'. congruence. Qed.

(** The three ways an iteration that returns can go. *)
Lemma visit_outcome (st : Locals) (pid : Z) :
  result (visit env pid st) = Returns tt ->
  (final (visit env pid st) = st /\ forall n, ~ eligible env pid n)
  \/ (final (visit env pid st) = st
      /\ exists n, name (observe env pid) = Returns n
                   /\ PyStr.lower n ∈ added_process_names st)
  \/ (exists n, eligible env pid n
                /\ (PyStr.lower n ∉ added_process_names st)
                /\ final (visit env pid st)
                   = append_info {| pi_name := n; pi_pid := pid |}
                                 (add_name (PyStr.lower n) st)).
Proof.
  unfold visit, try_except, bind, answer, gets, modify, ret. simpl.
  destruct (process (observe env pid)) as [[]|e] eqn:Hp; simpl.
  2: { intros _. left. split.
       - match goal with |- context [if ?b then _ else _] => destruct b end; reflexivity.
       - intros n (Hp' & _). congruence. }
  destruct (name (observe env pid)) as [n|e] eqn:Hn; simpl.
  2: { intros _. left. split.
       - match goal with |- context [if ?b then _ else _] => destruct b end; reflexivity.
       - intros n (_ & Hn' & _). congruence. }
  destruct (bool_decide (PyStr.lower n ∈ added_process_names st)) eqn:Hin; simpl.
  { intros _. right. left. apply bool_decide_eq_true in Hin. split; [reflexivity|eauto]. }
  apply bool_decide_eq_false in Hin.
  destruct (cmdline (observe env pid)) as [[|c cl]|e] eqn:Hc; simpl.
  - intros _. left. split; [reflexivity|].
    intros n' (_ & _ & cl & Hc' & Hne). congruence.
  - intros _. right. right. exists n. split; [|split; [exact Hin|reflexivity]].
    split; [exact Hp|]. split; [exact Hn|].
    exists (c :: cl). split; [exact Hc|discriminate].
  - intros _. left. split.
    + match goal with |- context [if ?b then _ else _] => destruct b end; reflexivity.
    + intros n' (_ & _ & cl & Hc' & _). congruence.
Qed.

Lemma first_of_its_name_later (done : list Z) (pid : Z) (i : ProcessInfo) :
  first_of_its_name env done i -> first_of_its_name env (done ++ [pid]) i.
Proof.
  intros (before & later & -> & He & Hfirst).
  exists before, (later ++ [pid]). split; [|split; assumption].
  rewrite <- app_assoc. reflexivity.
Qed.

Lemma progress_step (done : list Z) (st : Locals) (pid : Z) :
  Progress env done st ->
  result (visit env pid st) = Returns tt ->
  Progress env (done ++ [pid]) (final (visit env pid st)).
Proof.
  intros [Hadd Hcov Hfirst Hord] Hret.
  destruct (visit_outcome st pid Hret) as [[-> Hno]|[[-> (n & Hn & Hin)]|(n & He & Hnew & ->)]].
  - split; [exact Hadd| | |].
    + intros q m Hq Hel. apply elem_of_app in Hq as [Hq|Hq]; [eauto|].
      apply list_elem_of_singleton in Hq. subst q. destruct (Hno m Hel).
    + intros i Hi. apply first_of_its_name_later, Hfirst, Hi.
    + apply sublist_inserts_r, Hord.
  - split; [exact Hadd| | |].
    + intros q m Hq Hel. apply elem_of_app in Hq as [Hq|Hq]; [eauto|].
      apply list_elem_of_singleton in Hq. subst q.
      rewrite (eligible_name pid m n Hel Hn). exact Hin.
    + intros i Hi. apply first_of_its_name_later, Hfirst, Hi.
    + apply sublist_inserts_r, Hord.
  - split; simpl.
    + intros k. rewrite elem_of_union, elem_of_singleton, fmap_app, elem_of_app, Hadd.
      simpl. rewrite list_elem_of_singleton. unfold key at 2. simpl. tauto.
    + intros q m Hq Hel. apply elem_of_app in Hq as [Hq|Hq].
      * apply elem_of_union_r. eauto.
      * apply list_elem_of_singleton in Hq. subst q.
        destruct He as (_ & Hn & _). rewrite (eligible_name pid m n Hel Hn).
        apply elem_of_union_l, elem_of_singleton. reflexivity.
    + intros i Hi. apply elem_of_app in Hi as [Hi|Hi].
      * apply first_of_its_name_later, Hfirst, Hi.
      * apply list_elem_of_singleton in Hi. subst i.
        exists done, []. split; [reflexivity|]. split; [exact He|].
        intros q m Hq Hel Hk. apply Hnew. unfold key in Hk. simpl in Hk.
        rewrite <- Hk. eauto.
    + rewrite fmap_app. apply sublist_app; [exact Hord|]. simpl. reflexivity.
Qed.

Lemma progress_loop (xs done : list Z) (st : Locals) :
  Progress env done st ->
  result (for_each xs (visit env) st) = Returns tt ->
  Progress env (done ++ xs) (final (for_each xs (visit env) st)).
Proof.
  revert done st. induction xs as [|pid rest IH]; intros done st Hp Hret.
  - rewrite app_nil_r. exact Hp.
  - cbn [for_each] in *.
    apply bind_returns_inv in Hret as ([] & Hv & Hrest & ->).
    replace (done ++ pid :: rest) with ((done ++ [pid]) ++ rest)
      by (rewrite <- app_assoc; reflexivity).
    apply IH; [|exact Hrest]. apply progress_step; assumption.
Qed.

Lemma initial_progress : Progress env [] initial.
Proof.
  split; simpl.
  - intros k. split; intros H; inversion H.
  - intros q n H. inversion H.
  - intros i H. inversion H.
  - constructor.
Qed.

Lemma emitted_progress (l : list ProcessInfo) :
  emitted env = Some l ->
  exists st, Progress env (pids env) st /\ process_list st = l.
Proof.
  unfold emitted. destruct (result (run env)) as [[]|e] eqn:Hr; [|discriminate].
  intros [= <-]. exists (final (run env)). split; [|reflexivity].
  pose proof (run_unfold env) as Hrun. cbv zeta in Hrun.
  destruct (result (for_each (pids env) (visit env) initial)) as [[]|e] eqn:Hloop.
  - rewrite Hrun. cbn [final].
    exact (progress_loop (pids env) [] initial initial_progress Hloop).
  - rewrite Hrun in Hr. discriminate Hr.
Qed.

End ProcessLoaderCoverage.

(** X7. Whenever the process list is emitted, it leaves no program out
    and follows the enumeration.  Every process of the enumeration that
    could be opened, gave a name and has a command line is represented: the
    list has an entry whose name equals its name up to case.  The PIDs of
    the entries appear in the order of [psutil.pids()].  And of several
    such processes whose names are equal up to case, the entry is the one
    met first. *)
Theorem process_list_covers_enumeration {U : PyStr.Unicode}
    (env : ProcessLoaderThread.Env) (l : list ProcessInfo)
    (Hem : ProcessLoaderThread.emitted env = Some l) :
  (forall pid n,
      pid ∈ ProcessLoaderThread.pids env ->
      ProcessLoaderThread.eligible env pid n ->
      exists i, i ∈ l /\ PyStr.lower (pi_name i) = PyStr.lower n)
  /\ (pi_pid <$> l) `sublist_of` ProcessLoaderThread.pids env
  /\ (forall i, i ∈ l ->
        exists before later,
          ProcessLoaderThread.pids env = before ++ pi_pid i :: later
          /\ ProcessLoaderThread.eligible env (pi_pid i) (pi_name i)
          /\ forall q n, q ∈ before -> ProcessLoaderThread.eligible env q n ->
                         PyStr.lower n <> PyStr.lower (pi_name i)).
Proof.
  destruct (emitted_progress env l Hem) as (st & [Hadd Hcov Hfirst Hord] & <-).
  split; [|split].
  - intros pid n Hpid Hel.
    pose proof (Hcov pid n Hpid Hel) as Hin. apply Hadd in Hin.
    apply list_elem_of_fmap in Hin as (i & Hk & Hi). exists i. split; [exact Hi|].
    unfold ProcessLoaderThread.key in Hk. congruence.
  - exact Hord.
  - exact Hfirst.
Qed.

Lemma process_list_covers_enumeration_witness :
  ProcessLoaderThread.emitted ProcessLoaderThread.sample_env
  = Some [ {| pi_name := "Chrome.exe"; pi_pid := 100 |} ]
  /\ (pi_pid <$> [ {| pi_name := "Chrome.exe"; pi_pid := 100 |} ])
       `sublist_of` ProcessLoaderThread.pids ProcessLoaderThread.sample_env.
Proof.
  assert (ProcessLoaderThread.emitted ProcessLoaderThread.sample_env
          = Some [ {| pi_name := "Chrome.exe"; pi_pid := 100 |} ]) as H
    by (vm_compute; reflexivity).
  split; [exact H|].
  exact (proj1 (proj2 (process_list_covers_enumeration
                         ProcessLoaderThread.sample_env _ H))).
Defined.

(** ** The rows of the process dialog *)

Section ProcessDialogRows.
Context {U : PyStr.Unicode}.
Import ProcessDialog.

Lemma ltb_leb (a b : string) : String.ltb a b = true -> String.leb a b = true.
Proof. unfold String.ltb, String.leb. destruct (String.compare a b); congruence. Qed.

Lemma not_ltb_leb (a b : string) : String.ltb a b = false -> String.leb b a = true.
Proof.
  unfold String.ltb, String.leb. rewrite (String.compare_antisym a b).
  destruct (String.compare b a); simpl; congruence.
Qed.

Lemma insert_sorted_perm (x : ProcessInfo) (l : list ProcessInfo) :
  insert_sorted x l ≡ₚ x :: l.
Proof.
  induction l as [|y rest IH]; [reflexivity|]. simpl.
  destruct (String.ltb (sort_key x) (sort_key y)); [reflexivity|].
  rewrite IH. apply Permutation_swap.
Qed.

Lemma insert_sorted_hd (x y : ProcessInfo) (l : list ProcessInfo) :
  key_le y x -> HdRel key_le y l -> HdRel key_le y (insert_sorted x l).
Proof.
  intros Hyx Hhd. destruct l as [|z rest]; simpl.
  - constructor. exact Hyx.
  - destruct (String.ltb (sort_key x) (sort_key z)).
    + constructor. exact Hyx.
    + constructor. inversion Hhd. assumption.
Qed.

Lemma insert_sorted_sorted (x : ProcessInfo) (l : list ProcessInfo) :
  Sorted key_le l -> Sorted key_le (insert_sorted x l).
Proof.
  induction l as [|y rest IH]; intros Hs; simpl.
  - repeat constructor.
  - destruct (String.ltb (sort_key x) (sort_key y)) eqn:Hlt.
    + constructor; [exact Hs|]. constructor. apply ltb_leb, Hlt.
    + inversion Hs as [|? ? Hrest Hhd]. subst.
      constructor; [apply IH, Hrest|].
      apply insert_sorted_hd; [apply not_ltb_leb, Hlt|exact Hhd].
Qed.

Lemma fold_insert_perm (l acc : list ProcessInfo) :
  fold_left (fun acc x => insert_sorted x acc) l acc ≡ₚ l ++ acc.
Proof.
  revert acc. induction l as [|x rest IH]; intros acc; [reflexivity|].
  simpl. rewrite IH, insert_sorted_perm. symmetry. apply Permutation_middle.
Qed.

Lemma fold_insert_sorted (l acc : list ProcessInfo) :
  Sorted key_le acc ->
  Sorted key_le (fold_left (fun acc x => insert_sorted x acc) l acc).
Proof.
  revert acc. induction l as [|x rest IH]; intros acc Hs; [exact Hs|].
  simpl. apply IH, insert_sorted_sorted, Hs.
Qed.

Lemma sorted_by_name_perm (l : list ProcessInfo) : sorted_by_name l ≡ₚ l.
Proof. unfold sorted_by_name. rewrite fold_insert_perm, app_nil_r. reflexivity. Qed.

Lemma sorted_by_name_sorted (l : list ProcessInfo) : Sorted key_le (sorted_by_name l).
Proof. apply fold_insert_sorted. constructor. Qed.

Lemma rows_sorted_map (l : list ProcessInfo) :
  Sorted key_le l -> rows_sorted (map item_of l).
Proof.
  unfold rows_sorted. induction 1 as [|x l Hs IH Hhd]; simpl; [constructor|].
  constructor; [exact IH|]. destruct Hhd; simpl; constructor. assumption.
Qed.

Lemma update_process_list_shown (l : list ProcessInfo) (d : t) :
  l <> [] ->
  process_list_widget (update_process_list l d) ≡ₚ map item_of l
  /\ ok_enabled (update_process_list l d) = true.
Proof.
  intros Hne. destruct l as [|p ps]; [congruence|].
  cbn [update_process_list process_list_widget ok_enabled].
  split; [|reflexivity]. apply Permutation_map, sorted_by_name_perm.
Qed.

End ProcessDialogRows.

(** X8. When the loader reports a non-empty list, [update_process_list]
    replaces the rows of the dialog by one row per reported process, each
    showing the process name and carrying its PID; the rows are a
    rearrangement of the reported list, in ascending order of the
    lower-cased names; no row is current, and OK is enabled.  When the
    reported list is empty the only row is the text
    [Could not load processes.], without a PID, and OK is left as it was
    (disabled, in a dialog fresh from its construction). *)
Theorem update_process_list_rows {U : PyStr.Unicode} (processes : list ProcessInfo) (d : ProcessDialog.t) :
  let d' := ProcessDialog.update_process_list processes d in
  ProcessDialog.current_row d' = None
  /\ ProcessDialog.selected_process d' = ProcessDialog.selected_process d
  /\ (processes = [] ->
      ProcessDialog.process_list_widget d'
      = [ {| ProcessDialog.text := "Could not load processes.";
             ProcessDialog.user_pid := None |} ]
      /\ ProcessDialog.ok_enabled d' = ProcessDialog.ok_enabled d
      /\ ProcessDialog.ok_enabled
           (ProcessDialog.update_process_list processes ProcessDialog.init) = false)
  /\ (processes <> [] ->
      ProcessDialog.process_list_widget d' ≡ₚ map ProcessDialog.item_of processes
      /\ ProcessDialog.rows_sorted (ProcessDialog.process_list_widget d')
      /\ length (ProcessDialog.process_list_widget d') = length processes
      /\ ProcessDialog.ok_enabled d' = true).
Proof.
  intros d'. subst d'. destruct processes as [|p ps].
  - cbn [ProcessDialog.update_process_list ProcessDialog.current_row
         ProcessDialog.selected_process ProcessDialog.process_list_widget
         ProcessDialog.ok_enabled ProcessDialog.init].
    split; [reflexivity|]. split; [reflexivity|].
    split; [intros _; repeat split|].
    intros H. destruct (H eq_refl).
  - cbn [ProcessDialog.update_process_list ProcessDialog.current_row
         ProcessDialog.selected_process ProcessDialog.process_list_widget
         ProcessDialog.ok_enabled].
    split; [reflexivity|]. split; [reflexivity|]. split; [discriminate|].
    intros _.
    pose proof (sorted_by_name_perm (p :: ps)) as Hperm.
    split; [|split; [|split]].
    + apply Permutation_map. exact Hperm.
    + apply rows_sorted_map, sorted_by_name_sorted.
    + rewrite length_map. apply Permutation_length. exact Hperm.
    + reflexivity.
Qed.

Example update_process_list_example :
  ProcessDialog.text
    <$> ProcessDialog.process_list_widget
          (ProcessDialog.update_process_list
             [ {| pi_name := "svchost.exe"; pi_pid := 900 |};
               {| pi_name := "Chrome.exe"; pi_pid := 100 |};
               {| pi_name := "code.exe"; pi_pid := 17 |};
               {| pi_name := "Яндекс.exe"; pi_pid := 33 |} ]
             ProcessDialog.init)
  = ["Chrome.exe"; "code.exe"; "svchost.exe"; "Яндекс.exe"].
Proof. vm_compute. reflexivity. Qed.

(** X9. From the enumeration to the target.  When the loader's list is
    shown in a fresh dialog, whichever row the user clicks and accepts,
    the dialog's selected process is the name of a process of the
    enumeration that could be opened, gave exactly that name and has a
    command line, and the row carries the PID of that process. *)
Theorem accepted_row_is_a_listed_process {U : PyStr.Unicode}
    (env : ProcessLoaderThread.Env) (l : list ProcessInfo) (row : nat)
    (item : ProcessDialog.Item)
    (Hem : ProcessLoaderThread.emitted env = Some l)
    (Hne : l <> [])
    (Hrow : ProcessDialog.process_list_widget
              (ProcessDialog.update_process_list l ProcessDialog.init) !! row
            = Some item) :
  let shown := ProcessDialog.update_process_list l ProcessDialog.init in
  let d := ProcessDialog.accept (ProcessDialog.click_row row shown) in
  ProcessDialog.ok_enabled shown = true
  /\ ProcessDialog.selected_process d = Some (ProcessDialog.text item)
  /\ exists pid,
       ProcessDialog.user_pid item = Some pid
       /\ pid ∈ ProcessLoaderThread.pids env
       /\ ProcessLoaderThread.eligible env pid (ProcessDialog.text item).
Proof.
  intros shown d.
  destruct (update_process_list_shown l ProcessDialog.init Hne) as (Hperm & Hok).
  fold shown in Hperm, Hok.
  split; [exact Hok|]. split.
  - subst d. unfold ProcessDialog.accept, ProcessDialog.currentItem,
      ProcessDialog.click_row.
    cbn [ProcessDialog.selected_process ProcessDialog.current_row
         ProcessDialog.process_list_widget].
    assert (row < length (ProcessDialog.process_list_widget shown))%nat as Hlt
      by (eapply lookup_lt_Some; exact Hrow).
    apply Nat.ltb_lt in Hlt. rewrite Hlt. fold shown in Hrow. rewrite Hrow. reflexivity.
  - assert (item ∈ ProcessDialog.process_list_widget shown) as Hin
      by (eapply list_elem_of_lookup_2; exact Hrow).
    rewrite Hperm in Hin. apply list_elem_of_In, in_map_iff in Hin as (p & <- & Hp).
    apply list_elem_of_In in Hp.
    destruct (emitted_invariant env l Hem) as [_ Hgen].
    destruct (Hgen p Hp) as (Hpid & Hproc & Hname & Hcmd).
    exists (pi_pid p). split; [reflexivity|]. split; [exact Hpid|].
    split; [exact Hproc|]. split; [exact Hname|exact Hcmd].
Qed.

Lemma accepted_row_is_a_listed_process_witness :
  let l := [ {| pi_name := "Chrome.exe"; pi_pid := 100 |} ] in
  let shown := ProcessDialog.update_process_list l ProcessDialog.init in
  ProcessLoaderThread.emitted ProcessLoaderThread.sample_env = Some l
  /\ ProcessDialog.selected_process
       (ProcessDialog.accept (ProcessDialog.click_row 0 shown))
     = Some "Chrome.exe".
Proof.
  intros l shown.
  assert (ProcessLoaderThread.emitted ProcessLoaderThread.sample_env = Some l) as H
    by (vm_compute; reflexivity).
  assert (l <> []) as Hne by discriminate.
  split; [exact H|].
  exact (proj1 (proj2 (accepted_row_is_a_listed_process
                         ProcessLoaderThread.sample_env l 0%nat
                         {| ProcessDialog.text := "Chrome.exe";
                            ProcessDialog.user_pid := Some 100 |}
                         H Hne eq_refl))).
Defined.

(** ** The icon loader *)

Section IconLoaderFacts.
Import IconLoaderThread.
Variable env : Env.

(** The ways one iteration can go. *)
Lemma load_outcome (item : ProcessDialog.Item) (pid : Z) (out : Emitted) :
  (exists path, has_icon env pid path
                /\ load env (item, pid) out
                   = MkRun (Returns tt) (out ++ [(item, FileIcon path)]) [PsutilProcess pid])
  \/ ((forall path, ~ has_icon env pid path)
      /\ final (load env (item, pid) out) = out
      /\ trace (load env (item, pid) out) = [PsutilProcess pid]
      /\ (expected (process env pid) (exe env pid) ->
          result (load env (item, pid) out) = Returns tt)).
Proof.
  unfold load, try_except, bind, answer, call, when, emit_icon, modify, ret, expected.
  destruct (process env pid) as [[]|e] eqn:Hp.
  2: { right. split; [intros path (Hp' & _); congruence|].
       destruct (Exc.caught_by _ e) eqn:Hc; cbn; repeat split; auto.
       intros [H _]. specialize (H e eq_refl). cbn in Hc, H. congruence. }
  destruct (exe env pid) as [path|e] eqn:He.
  2: { right. split; [intros path (_ & He' & _); congruence|].
       destruct (Exc.caught_by _ e) eqn:Hc; cbn; repeat split; auto.
       intros [_ H]. specialize (H e eq_refl). cbn in Hc, H. congruence. }
  destruct (PyStr.truthy path) eqn:Ht.
  2: { right. split; [intros q (_ & He' & Ht' & _); congruence|]. cbn. auto. }
  destruct (is_null env path) eqn:Hn.
  { right. split; [intros q (_ & He' & _ & Hn'); congruence|]. cbn. auto. }
  left. exists path. split; [repeat split; assumption|reflexivity].
Qed.

Lemma run_from (items : list (ProcessDialog.Item * Z)) (out : Emitted) :
  only_expected_errors env items ->
  let r := for_each items (load env) out in
  result r = Returns tt
  /\ exists added,
       final r = out ++ added
       /\ (fst <$> added) `sublist_of` (fst <$> items)
       /\ (forall item icon, (item, icon) ∈ added ->
             exists pid path, (item, pid) ∈ items /\ has_icon env pid path
                              /\ icon = FileIcon path)
       /\ (forall item pid path, (item, pid) ∈ items -> has_icon env pid path ->
             (item, FileIcon path) ∈ added).
Proof.
  revert out. induction items as [|[item pid] rest IH]; intros out Hok.
  - cbn. split; [reflexivity|]. exists []. rewrite app_nil_r.
    split; [reflexivity|]. split; [constructor|].
    split; [intros ? ? H; inversion H|intros ? ? ? H; inversion H].
  - assert (only_expected_errors env rest) as Hok'.
    { intros i q Hin. apply (Hok i q). right. exact Hin. }
    cbn [for_each].
    destruct (load_outcome item pid out)
      as [(path & Hicon & Hrun)|(Hno & Hfin & _ & Hret)].
    + rewrite (bind_returns _ _ _ tt) by (rewrite Hrun; reflexivity).
      rewrite Hrun. cbn [result final trace].
      destruct (IH (out ++ [(item, FileIcon path)]) Hok')
        as (Hr & added & Hf & Hsub & Hsound & Hcomplete).
      split; [exact Hr|]. exists ((item, FileIcon path) :: added).
      split; [rewrite Hf, <- app_assoc; reflexivity|].
      split; [cbn; constructor; exact Hsub|]. split.
      * intros i ic Hin. apply elem_of_cons in Hin as [[= -> ->]|Hin].
        -- exists pid, path. split; [left|]. auto.
        -- destruct (Hsound i ic Hin) as (q & pa & Hq & Hq').
           exists q, pa. split; [right; exact Hq|exact Hq'].
      * intros i q pa Hin Hi. apply elem_of_cons in Hin as [[= -> ->]|Hin].
        -- destruct Hicon as (_ & He1 & _), Hi as (_ & He2 & _).
           assert (pa = path) by congruence. subst pa. left.
        -- right. eapply Hcomplete; eassumption.
    + specialize (Hret (Hok item pid (list_elem_of_here _ _))).
      rewrite (bind_returns _ _ _ tt Hret). rewrite Hfin. cbn [result final trace].
      destruct (IH out Hok') as (Hr & added & Hf & Hsub & Hsound & Hcomplete).
      split; [exact Hr|]. exists added.
      split; [exact Hf|]. split; [cbn; constructor; exact Hsub|]. split.
      * intros i ic Hin. destruct (Hsound i ic Hin) as (q & pa & Hq & Hq').
        exists q, pa. split; [right; exact Hq|exact Hq'].
      * intros i q pa Hin Hi. apply elem_of_cons in Hin as [[= -> ->]|Hin].
        -- destruct (Hno pa Hi).
        -- eapply Hcomplete; eassumption.
Qed.

End IconLoaderFacts.

(** X10. When the processes fail only in the ways the loop expects
    ([NoSuchProcess], [AccessDenied], [FileNotFoundError] and their
    subclasses), [IconLoaderThread.run] gets through all its items.  It
    emits icons for rows in the order of its list, and an icon for a row
    exactly when the process of that row could be opened, has a non-empty
    executable path, and the provider has an icon for that path; the icon
    emitted is the one of that path. *)
Theorem icon_loader_emits_available_icons
    (env : IconLoaderThread.Env) (items : list (ProcessDialog.Item * Z))
    (Hok : IconLoaderThread.only_expected_errors env items) :
  let r := IconLoaderThread.run env items in
  result r = Returns tt
  /\ (fst <$> final r) `sublist_of` (fst <$> items)
  /\ (forall item icon, (item, icon) ∈ final r ->
        exists pid path, (item, pid) ∈ items
                         /\ IconLoaderThread.has_icon env pid path
                         /\ icon = IconLoaderThread.FileIcon path)
  /\ (forall item pid path, (item, pid) ∈ items ->
        IconLoaderThread.has_icon env pid path ->
        (item, IconLoaderThread.FileIcon path) ∈ final r).
Proof.
  intros r. subst r. unfold IconLoaderThread.run.
  destruct (run_from env items [] Hok) as (Hr & added & Hf & H1 & H2 & H3).
  rewrite Hf. cbn [app]. auto.
Qed.

Lemma icon_loader_emits_available_icons_witness :
  IconLoaderThread.only_expected_errors IconLoaderThread.sample_env
    IconLoaderThread.sample_items
  /\ result (IconLoaderThread.run IconLoaderThread.sample_env IconLoaderThread.sample_items)
     = Returns tt.
Proof.
  assert (IconLoaderThread.only_expected_errors IconLoaderThread.sample_env
            IconLoaderThread.sample_items) as H.
  { intros item pid Hin. unfold IconLoaderThread.sample_items in Hin.
    repeat (apply elem_of_cons in Hin as [[= -> ->]|Hin]);
      [| | | | |inversion Hin];
      (split; intros e He; vm_compute in He; try discriminate He;
       injection He as <-; reflexivity). }
  split; [exact H|].
  exact (proj1 (icon_loader_emits_available_icons _ _ H)).
Defined.

Example icon_loader_example :
  final (IconLoaderThread.run IconLoaderThread.sample_env IconLoaderThread.sample_items)
  = [ ({| ProcessDialog.text := "Chrome.exe"; ProcessDialog.user_pid := Some 100 |},
       IconLoaderThread.FileIcon "C:\Chrome.exe") ].
Proof. vm_compute. reflexivity. Qed.

(** ** Start-up, over every environment *)

Section StartupCases.
Import Main.
Variable env : Env.

Lemma start_app_id_raises (e : exn) :
  set_app_id env = Raises e ->
  start env = MkRun (Raises e) tt [SetAppUserModelID myappid].
Proof.
  intros Hid. unfold start, main. rewrite Hid, bind_answer_raises. reflexivity.
Qed.

Lemma start_not_admin_trace :
  set_app_id env = Returns tt ->
  (shell_is_user_an_admin env = Returns 0 \/ exists e, shell_is_user_an_admin env = Raises e) ->
  trace (start env)
  = [SetAppUserModelID myappid; IsUserAnAdmin;
     MessageBoxW admin_message "Administrator Privileges Required" 16].
Proof.
  intros Hid Hadm.
  unfold start, main, is_admin, try_except, bind, answer, sys_exit, raise, emit, ret.
  rewrite Hid.
  destruct Hadm as [H|[e H]]; rewrite H; cbn;
    [|rewrite (isinstance_base e); cbn]; destruct (message_box env); reflexivity.
Qed.

End StartupCases.

(** X11. Over every environment: the main window is created exactly when
    the application id could be set, the administrator check passed, no
    other instance held the lock and the lock could be created; its
    creation then comes after the creation of the one-byte lock segment.
    The [QApplication] itself is constructed exactly when the application
    id could be set and the administrator check passed. *)
Theorem main_window_only_with_lock (env : Main.Env) :
  let r := Main.start env in
  let admin_passed :=
    Main.set_app_id env = Returns tt
    /\ exists a, Main.shell_is_user_an_admin env = Returns a /\ a <> 0 in
  (existsb Main.creates_main_window (trace r) = true
   <-> admin_passed /\ Main.attach env = false /\ Main.create env = true)
  /\ (existsb Main.creates_main_window (trace r) = true ->
      exists before later,
        trace r = before ++ SharedMemoryCreate Main.lock_key 1 :: later
        /\ existsb Main.creates_main_window before = false)
  /\ (NewQApplication ∈ trace r <-> admin_passed).
Proof.
  intros r admin_passed. subst r admin_passed.
  destruct (Main.set_app_id env) as [[]|e0] eqn:Hid.
  2: { rewrite (start_app_id_raises env e0 Hid). cbn.
       split; [|split].
       - split; [discriminate|intros [[H _] _]; discriminate].
       - discriminate.
       - split; [|intros [H _]; discriminate].
         intros H. apply list_elem_of_singleton in H. discriminate. }
  destruct (Main.shell_is_user_an_admin env) as [a|e1] eqn:Hadm.
  - destruct (Z.eq_dec a 0) as [->|Hne].
    + rewrite (start_not_admin_trace env Hid (or_introl Hadm)). cbn.
      split; [|split].
      * split; [discriminate|]. intros [[_ (a & [= <-] & Hne)] _]. congruence.
      * discriminate.
      * split; [|intros [_ (a & [= <-] & Hne)]; congruence].
        intros H. repeat (apply elem_of_cons in H as [H|H]; [discriminate|]).
        inversion H.
    + rewrite (start_admin env a Hid Hadm Hne). cbv zeta.
      destruct (Main.attach env); [|destruct (Main.create env)]; cbn.
      * split; [|split].
        -- split; [discriminate|intros (_ & H & _); discriminate].
        -- discriminate.
        -- split; [intros _; split; [reflexivity|eauto]|].
           intros _. right. right. left.
      * split; [|split].
        -- split; [intros _; repeat split; eauto|reflexivity].
        -- intros _.
           exists [SetAppUserModelID Main.myappid; IsUserAnAdmin; NewQApplication;
                   SharedMemoryAttach Main.lock_key].
           eexists. split; reflexivity.
        -- split; [intros _; split; [reflexivity|eauto]|].
           intros _. right. right. left.
      * split; [|split].
        -- split; [discriminate|intros (_ & _ & H); discriminate].
        -- discriminate.
        -- split; [intros _; split; [reflexivity|eauto]|].
           intros _. right. right. left.
  - rewrite (start_not_admin_trace env Hid (or_intror (ex_intro _ e1 Hadm))). cbn.
    split; [|split].
    + split; [discriminate|]. intros [[_ (a & H & _)] _]. discriminate.
    + discriminate.
    + split; [|intros [_ (a & H & _)]; discriminate].
      intros H. repeat (apply elem_of_cons in H as [H|H]; [discriminate|]).
      inversion H.
Qed.

(** ** The layout translation *)

(** X12. [RU_TO_EN_MAP] has 32 entries, and the translation it gives is
    one to one on them: two different Russian letters never become the
    same key.  A translated part is never itself a Russian letter of the
    table, so translating twice changes nothing more; and a part that is
    not in the table, a modifier in particular, is left as it is. *)
Theorem translate_properties :
  size RU_TO_EN_MAP = 32%nat
  /\ (forall p q v, RU_TO_EN_MAP !! p = Some v -> RU_TO_EN_MAP !! q = Some v -> p = q)
  /\ (forall p, translate (translate p) = translate p)
  /\ (forall p, RU_TO_EN_MAP !! p = None -> translate p = p)
  /\ (forall p, is_modifier p = true -> translate p = p).
Proof.
  assert (map_Forall (fun _ v => RU_TO_EN_MAP !! v = None) RU_TO_EN_MAP) as Hval.
  { apply (bool_decide_unpack _). vm_compute. reflexivity. }
  assert (map_Forall
            (fun p v => map_Forall (fun q v' => v = v' -> p = q) RU_TO_EN_MAP)
            RU_TO_EN_MAP) as Hinj.
  { apply (bool_decide_unpack _). vm_compute. reflexivity. }
  assert (forall p, p ∈ MODIFIERS -> RU_TO_EN_MAP !! p = None) as Hmod.
  { apply (set_Forall_elements (fun p => RU_TO_EN_MAP !! p = None)).
    apply (bool_decide_unpack _). vm_compute. reflexivity. }
  split; [vm_compute; reflexivity|]. split; [|split; [|split]].
  - intros p q v Hp Hq. exact (Hinj p v Hp q v Hq eq_refl).
  - intros p. unfold translate.
    destruct (RU_TO_EN_MAP !! p) as [v|] eqn:Hp.
    + change (default v (RU_TO_EN_MAP !! v) = v). rewrite (Hval p v Hp). reflexivity.
    + change (default p (RU_TO_EN_MAP !! p) = p). rewrite Hp. reflexivity.
  - intros p Hp. unfold translate. rewrite Hp. reflexivity.
  - intros p Hp. unfold translate. unfold is_modifier in Hp.
    apply bool_decide_eq_true in Hp. rewrite (Hmod p Hp). reflexivity.
Qed.

(** ** What [is_valid_hotkey] counts *)

Section ValidityFacts.
Context {U : PyStr.Unicode}.

Lemma split_without_separator (sep : ascii) (s : string) :
  contains sep s = false -> PyStr.split sep s = [s].
Proof.
  induction s as [|c r IH]; [reflexivity|]. simpl.
  destruct (Ascii.eqb c sep); [discriminate|]. simpl. intros H.
  rewrite (IH H). reflexivity.
Qed.

Lemma is_valid_hotkey_same_parts (s s' : string) :
  s <> "" -> s' <> "" ->
  (forall p, p ∈ valid_hotkey_parts s <-> p ∈ valid_hotkey_parts s') ->
  is_valid_hotkey s = is_valid_hotkey s'.
Proof.
  intros Hs Hs' Hparts.
  assert (is_valid_hotkey s = true <-> is_valid_hotkey s' = true) as Hiff.
  { rewrite !is_valid_hotkey_iff. split.
    - intros [_ (k & Hk & Hin & Hall)]. split; [exact Hs'|].
      exists k. split; [exact Hk|]. split; [apply Hparts, Hin|].
      intros p Hp. apply Hall, Hparts, Hp.
    - intros [_ (k & Hk & Hin & Hall)]. split; [exact Hs|].
      exists k. split; [exact Hk|]. split; [apply Hparts, Hin|].
      intros p Hp. apply Hall, Hparts, Hp. }
  destruct (is_valid_hotkey s), (is_valid_hotkey s'); try reflexivity.
  - symmetry. apply Hiff. reflexivity.
  - apply Hiff. reflexivity.
Qed.

Lemma split_after_part (sep : ascii) (m s : string) :
  contains sep m = false ->
  PyStr.split sep (m +:+ String sep s) = m :: PyStr.split sep s.
Proof.
  induction m as [|c r IH]; simpl.
  - intros _. rewrite Ascii.eqb_refl. reflexivity.
  - destruct (Ascii.eqb c sep); [discriminate|]. simpl. intros Hr.
    rewrite (IH Hr). reflexivity.
Qed.

Lemma is_valid_hotkey_extra_modifier (m s : string) :
  contains "+" m = false ->
  is_modifier (PyStr.lower (PyStr.strip m)) = true ->
  s <> "" ->
  is_valid_hotkey (m +:+ "+" +:+ s) = is_valid_hotkey s.
Proof.
  intros Hplus Hm Hs.
  assert (valid_hotkey_parts (m +:+ "+" +:+ s)
          = PyStr.lower (PyStr.strip m) :: valid_hotkey_parts s) as Hparts.
  { unfold valid_hotkey_parts.
    change (m +:+ "+" +:+ s) with (m +:+ String "+" s).
    rewrite (split_after_part "+" m s Hplus). reflexivity. }
  assert (m +:+ "+" +:+ s <> "") as Hne by (destruct m; discriminate).
  assert (is_valid_hotkey (m +:+ "+" +:+ s) = true <-> is_valid_hotkey s = true) as Hiff.
  { rewrite !is_valid_hotkey_iff, Hparts. split.
    - intros [_ (k & Hk & Hin & Hall)]. split; [exact Hs|].
      exists k. split; [exact Hk|]. split.
      + apply elem_of_cons in Hin as [->|Hin]; [congruence|exact Hin].
      + intros p Hp. apply Hall. right. exact Hp.
    - intros [_ (k & Hk & Hin & Hall)]. split; [exact Hne|].
      exists k. split; [exact Hk|]. split; [right; exact Hin|].
      intros p Hp. apply elem_of_cons in Hp as [->|Hp]; [left; exact Hm|apply Hall, Hp]. }
  destruct (is_valid_hotkey (m +:+ "+" +:+ s)), (is_valid_hotkey s); try reflexivity.
  - symmetry. apply Hiff. reflexivity.
  - apply Hiff. reflexivity.
Qed.

End ValidityFacts.

(** X13. [is_valid_hotkey] counts the keys that are not modifiers, and
    nothing else.  A non-empty string without [+] is valid exactly when,
    stripped and lower-cased, it is not the name of a modifier: a single
    key needs no modifier to be valid.  Putting in front of a non-empty
    string a part without [+] that is, stripped and lower-cased, the name
    of a modifier, and a [+] after it, does not change the validity of the
    string.  And two non-empty strings with the same parts, in whatever
    order and however often repeated, are both valid or both invalid. *)
Theorem validity_counts_other_keys {U : PyStr.Unicode} :
  (forall s, s <> "" -> contains "+" s = false ->
             is_valid_hotkey s = negb (is_modifier (PyStr.lower (PyStr.strip s))))
  /\ (forall m s, contains "+" m = false ->
                  is_modifier (PyStr.lower (PyStr.strip m)) = true ->
                  s <> "" ->
                  is_valid_hotkey (m +:+ "+" +:+ s) = is_valid_hotkey s)
  /\ (forall s s', s <> "" -> s' <> "" ->
        (forall p, p ∈ valid_hotkey_parts s <-> p ∈ valid_hotkey_parts s') ->
        is_valid_hotkey s = is_valid_hotkey s').
Proof.
  split; [|split].
  - intros s Hs Hplus.
    assert (valid_hotkey_parts s = [PyStr.lower (PyStr.strip s)]) as Hparts.
    { unfold valid_hotkey_parts. rewrite (split_without_separator "+" s Hplus). reflexivity. }
    destruct (is_modifier (PyStr.lower (PyStr.strip s))) eqn:Hm; cbn [negb].
    + destruct (is_valid_hotkey s) eqn:Hv; [|reflexivity].
      apply is_valid_hotkey_iff in Hv as [_ (k & Hk & Hin & _)].
      rewrite Hparts in Hin. apply list_elem_of_singleton in Hin. congruence.
    + apply is_valid_hotkey_iff. split; [exact Hs|].
      exists (PyStr.lower (PyStr.strip s)). rewrite Hparts.
      split; [exact Hm|]. split; [left|].
      intros p Hp. apply list_elem_of_singleton in Hp. right. exact Hp.
  - exact is_valid_hotkey_extra_modifier.
  - exact is_valid_hotkey_same_parts.
Qed.

Example validity_examples :
  is_valid_hotkey "f5" = true
  /\ is_valid_hotkey " Shift " = false
  /\ is_valid_hotkey "k+ctrl+K+ctrl" = true
  /\ is_valid_hotkey "ctrl+" = true.
Proof. vm_compute. repeat split; reflexivity. Qed.

(** ** The whole run of the listener *)

Section ListenerRunFacts.
Import HotkeyListener.

Lemma wait_loop_trace (n : nat) : trace (wait_loop n tt) = replicate n (MSleep 100).
Proof.
  induction n as [|n IH]; [reflexivity|].
  cbn [wait_loop replicate]. rewrite bind_emit. cbn [trace]. rewrite IH. reflexivity.
Qed.

End ListenerRunFacts.

(** X14. When the registration succeeds, the whole run of the listener is
    the registration, one wait of 100 ms for each time it finds itself
    still running, and the removal, in this order and nothing else.  A
    removal that fails with anything other than a [KeyError] or a
    [ValueError] is not swallowed: that exception is what [run] ends with,
    whatever happened before. *)
Theorem hotkey_listener_run_shape (env : HotkeyListener.Env) (hk : string) :
  let r := HotkeyListener.run env hk tt in
  (HotkeyListener.add_hotkey env hk = Returns tt ->
   trace r = KeyboardAddHotkey hk
             :: replicate (HotkeyListener.polls env) (MSleep 100)
             ++ [KeyboardRemoveHotkey hk])
  /\ (forall e, HotkeyListener.remove_hotkey env hk = Raises e ->
        Exc.caught_by [Exc.KeyError; Exc.ValueError] e = false ->
        result r = Raises e).
Proof.
  intros r. subst r. split.
  - intros Hadd. unfold HotkeyListener.run. rewrite try_finally_trace.
    rewrite (unit_state (final (HotkeyListener.body env hk tt))), cleanup_trace.
    unfold HotkeyListener.body. rewrite Hadd, bind_answer_returns. cbn [trace].
    rewrite wait_loop_trace. reflexivity.
  - intros e Hrm Hc. unfold HotkeyListener.run, try_finally.
    destruct (HotkeyListener.body env hk tt) as [r1 [] t1].
    unfold HotkeyListener.cleanup, try_except, answer. rewrite Hrm, Hc. reflexivity.
Qed.

Example hotkey_listener_removal_fails :
  let env := {| HotkeyListener.add_hotkey := fun _ => Raises (Exn Exc.ValueError "invalid" 0);
                HotkeyListener.remove_hotkey :=
                  fun _ => Raises (Exn Exc.AttributeError "no hook" 0);
                HotkeyListener.polls := 0 |} in
  result (HotkeyListener.run env "ctrl + k" tt) = Raises (Exn Exc.AttributeError "no hook" 0).
Proof. reflexivity. Qed.

